(** * ai-agent frontend: chat client, quotation page, language detection

    A shallow embedding of the TypeScript sources
      - [frontend/utils/language.ts]
      - [frontend/components/ChatInterface.tsx]
      - [frontend/components/DownloadButtons.tsx]
      - [frontend/app/quotations/[id]/page.tsx]
    together with a model of the backend quotation state machine, which
    the repository snapshot only describes in prose.

    Conventions of the embedding:
      - a JavaScript string is the list of its UTF-16 code units;
      - a JavaScript number is an IEEE-754 binary64 value, computed with
        Stdlib's executable [SpecFloat];
      - React state is threaded explicitly: a handler is a function from
        the state it starts in to the state it leaves, and the updaters
        passed to [setMessages] are applied in program order;
      - one call of a handler runs without another handler interleaving
        with it;
      - what a handler awaits from the network is an argument of its
        model, and the requests it issues are part of its result;
      - scrolling, focus and the typing indicator are left out. *)

From Stdlib Require Import ZArith NArith Lia Bool Ascii String DecimalString.
From Stdlib Require Import SpecFloat.
From stdpp Require Import base option list gmap fin_maps strings.

Set Default Proof Using "Type".
Local Open Scope Z_scope.

(* ===================================================================== *)
(** * Part I: definitions                                                 *)
(* ===================================================================== *)

(** ** JavaScript strings *)

Module JS.

(** A string is the list of its UTF-16 code units. *)
Definition jsstring : Type := list N.

(** An ASCII literal of the source, as code units. *)
Definition js (s : string) : jsstring :=
  (fun a => N_of_ascii a) <$> list_ascii_of_string s.

(** JS truthiness of a string-or-null value: [null] and [''] are falsy. *)
Definition truthy (v : option jsstring) : bool :=
  match v with
  | Some (_ :: _) => true
  | _ => false
  end.

(** [String.prototype.startsWith]. *)
Fixpoint startsWith (pre s : jsstring) : bool :=
  match pre, s with
  | [], _ => true
  | p :: pre', c :: s' => (p =? c)%N && startsWith pre' s'
  | _ :: _, [] => false
  end.

(** [String.prototype.includes]. *)
Fixpoint includes (needle s : jsstring) : bool :=
  startsWith needle s ||
  match s with
  | [] => false
  | _ :: s' => includes needle s'
  end.

(** [s.slice(n)] for a non-negative [n]. *)
Definition slice (n : nat) (s : jsstring) : jsstring := drop n s.

(** [s.split('\n')]: the pieces between line feeds; never empty. *)
Fixpoint split_nl (s : jsstring) : list jsstring :=
  match s with
  | [] => [[]]
  | c :: s' =>
      if (c =? 10)%N then [] :: split_nl s'
      else match split_nl s' with
           | l :: ls => (c :: l) :: ls
           | [] => [[c]]
           end
  end.

(** White space and line terminators stripped by [String.prototype.trim]. *)
Definition is_white_space (c : N) : bool :=
  ((9 <=? c) && (c <=? 13) || (c =? 32) || (c =? 160) || (c =? 5760)
   || (8192 <=? c) && (c <=? 8202) || (c =? 8232) || (c =? 8233)
   || (c =? 8239) || (c =? 8287) || (c =? 12288) || (c =? 65279))%N.

Fixpoint trimStart (s : jsstring) : jsstring :=
  match s with
  | c :: s' => if is_white_space c then trimStart s' else s
  | [] => []
  end.

Definition trimEnd (s : jsstring) : jsstring := reverse (trimStart (reverse s)).

Definition trim (s : jsstring) : jsstring := trimEnd (trimStart s).

(** [`${n}`] for a non-negative integer. *)
Definition of_N (n : N) : jsstring := js (NilZero.string_of_uint (N.to_uint n)).

(** [Array.prototype.pop] on the result of a split: all but the last
    piece, and the last piece. *)
Definition pop (ls : list jsstring) : list jsstring * option jsstring :=
  (removelast ls, last ls).

(** ** Numbers: IEEE-754 binary64 *)

Definition number : Type := spec_float.

Definition prec : Z := 53.
Definition emax : Z := 1024.

(** The number denoting a non-negative integer (a length, a count). *)
Definition of_nat (n : nat) : number := binary_normalize prec emax (Z.of_nat n) 0 false.

(** The literal [0.3], i.e. the double nearest to 3/10:
    5404319552844595 * 2^-54. *)
Definition lit_0_3 : number := S754_finite false 5404319552844595 (-54).

Definition mul (x y : number) : number := SFmul prec emax x y.

(** [x > y] on numbers. *)
Definition gt (x y : number) : bool := SFltb y x.

End JS.

Export JS.

(** ** frontend/utils/language.ts *)

Module Language.

Inductive Lang := ar | en.

#[global] Instance Lang_eq_dec : EqDecision Lang.
Proof. solve_decision. Defined.

(** The character class of U+0600 to U+06FF. *)
Definition arabicPattern (c : N) : bool := ((1536 <=? c) && (c <=? 1791))%N.

(** The character class [[a-zA-Z]]. *)
Definition englishPattern (c : N) : bool :=
  ((97 <=? c) && (c <=? 122) || (65 <=? c) && (c <=? 90))%N.

(** [(text.match(re_g) || []).length]: the number of matching code units. *)
Definition match_count (p : N → bool) (text : jsstring) : nat :=
  length (filter (fun c => p c = true) text).

Definition detectLanguage (text : jsstring) : Lang :=
  let hasArabic := existsb arabicPattern text in
  let arabicCount := match_count arabicPattern text in
  let englishCount := match_count englishPattern text in
  if hasArabic && gt (of_nat arabicCount) (mul (of_nat (length text)) lit_0_3)
  then ar
  else en.

Definition isRTL (text : jsstring) : bool :=
  bool_decide (detectLanguage text = ar).

End Language.

(** ** The browser platform, as far as the chat client uses it *)

(** The object a server-sent [data: ] line parses to: the three properties
    the client reads ([None] is [undefined]). *)
Record SSEData := {
  sse_type : option jsstring;
  sse_content : option jsstring;
  sse_quotation_id : option jsstring
}.

(** A thrown or rejected value, seen through [error?.message]. *)
Record JSError := { message : option jsstring }.

(** [new Error(msg)]. *)
Definition Error (msg : jsstring) : JSError := {| message := Some msg |}.

(** What the component takes from its environment: the byte chunks of a
    response body, [TextDecoder.decode(value, {stream: true})] with the
    decoder's internal state made explicit, [JSON.parse] ([None] when it
    throws, or when the parsed value is [null] so that reading a property
    of it throws), and the build-time variable [NEXT_PUBLIC_API_URL]. *)
Class Platform := {
  Chunk : Type;
  DecoderState : Type;
  TextDecoder_new : DecoderState;
  TextDecoder_decode : DecoderState → Chunk → jsstring * DecoderState;
  JSON_parse : jsstring → option SSEData;
  NEXT_PUBLIC_API_URL : option jsstring
}.

(** ** HTTP requests issued by the client *)

Module Http.

Record File := { file_name : jsstring; file_type : jsstring; file_data : list N }.

Inductive Role := user | assistant.

#[global] Instance Role_eq_dec : EqDecision Role.
Proof. solve_decision. Defined.

(** An element of the transmitted history. *)
Record HistoryEntry := { h_role : Role; h_content : jsstring }.

(** The multipart form of the non-streaming request; the [history] field
    is the JSON text of the list held here. *)
Record FormData := {
  fd_message : jsstring;
  fd_history : list HistoryEntry;
  fd_session_id : option jsstring;
  fd_quotation_id : option jsstring;
  fd_files : list File
}.

(** The JSON body of the streaming request. *)
Record StreamBody := {
  sb_message : jsstring;
  sb_history : list HistoryEntry;
  sb_session_id : option jsstring;
  sb_quotation_id : option jsstring
}.

Inductive Request :=
| AxiosPost (url : jsstring) (form : FormData) (content_type : jsstring) (timeout : N)
| FetchPost (url : jsstring) (content_type : jsstring) (body : StreamBody)
| AxiosGetBlob (url : jsstring).

(** Outcome of [axios.post]: [response.data] or a rejection. *)
Inductive AxiosResult :=
| AxiosOk (response : jsstring) (quotation_id : option jsstring)
| AxiosRejected (e : JSError).

(** How reading a response body ends: [done], or [reader.read()] rejects. *)
Inductive StreamEnd := EndOfStream | ReadRejected (e : JSError).

Record Body `{Platform} := { chunks : list Chunk; ending : StreamEnd }.

(** Outcome of [fetch]: a rejection, or a response with [ok], [status],
    the outcome of [text()] and the body ([None] when [response.body] is
    null). *)
Inductive FetchResult `{Platform} :=
| FetchRejected (e : JSError)
| FetchResponse (ok : bool) (status : N) (text : JSError + jsstring) (body : option Body).

(** The replies the network gives to the one request a call issues. *)
Record Network `{Platform} := { axios_reply : AxiosResult; fetch_reply : FetchResult }.

End Http.

Export Http.

(** ** frontend/components/ChatInterface.tsx *)

Module ChatInterface.

Inductive AttachmentType := image | file.

Record Attachment := {
  a_type : AttachmentType;
  a_file : File;
  a_url : jsstring;
  a_name : jsstring
}.

Record MessageAttachment := {
  ma_type : AttachmentType;
  ma_url : jsstring;
  ma_name : jsstring
}.

Record Message := {
  role : Role;
  content : jsstring;
  msg_attachments : option (list MessageAttachment)
}.

(** What [console.error] was called with. *)
Inductive ConsoleEntry :=
| LogHttpError (status : N) (body : jsstring)
| LogSSEParseError (e : JSError) (line : jsstring)
| LogSendError (e : JSError).

(** The component's [useState] cells and [assistantMessageRef], with the
    two ambient stores it writes: [localStorage] and the console. *)
Record State := {
  messages : list Message;
  input : jsstring;
  isLoading : bool;
  attachments : list Attachment;
  sessionId : option jsstring;
  quotationId : option jsstring;
  assistantMessageRef : Z;
  localStorage : gmap jsstring jsstring;
  console : list ConsoleEntry
}.

Definition setMessages (f : list Message → list Message) (s : State) : State :=
  {| messages := f (messages s); input := input s; isLoading := isLoading s;
     attachments := attachments s; sessionId := sessionId s;
     quotationId := quotationId s; assistantMessageRef := assistantMessageRef s;
     localStorage := localStorage s; console := console s |}.

Definition setInput (v : jsstring) (s : State) : State :=
  {| messages := messages s; input := v; isLoading := isLoading s;
     attachments := attachments s; sessionId := sessionId s;
     quotationId := quotationId s; assistantMessageRef := assistantMessageRef s;
     localStorage := localStorage s; console := console s |}.

Definition setIsLoading (v : bool) (s : State) : State :=
  {| messages := messages s; input := input s; isLoading := v;
     attachments := attachments s; sessionId := sessionId s;
     quotationId := quotationId s; assistantMessageRef := assistantMessageRef s;
     localStorage := localStorage s; console := console s |}.

Definition setAttachments (v : list Attachment) (s : State) : State :=
  {| messages := messages s; input := input s; isLoading := isLoading s;
     attachments := v; sessionId := sessionId s;
     quotationId := quotationId s; assistantMessageRef := assistantMessageRef s;
     localStorage := localStorage s; console := console s |}.

Definition setSessionId (v : option jsstring) (s : State) : State :=
  {| messages := messages s; input := input s; isLoading := isLoading s;
     attachments := attachments s; sessionId := v;
     quotationId := quotationId s; assistantMessageRef := assistantMessageRef s;
     localStorage := localStorage s; console := console s |}.

Definition setQuotationId (v : option jsstring) (s : State) : State :=
  {| messages := messages s; input := input s; isLoading := isLoading s;
     attachments := attachments s; sessionId := sessionId s;
     quotationId := v; assistantMessageRef := assistantMessageRef s;
     localStorage := localStorage s; console := console s |}.

Definition set_assistantMessageRef (v : Z) (s : State) : State :=
  {| messages := messages s; input := input s; isLoading := isLoading s;
     attachments := attachments s; sessionId := sessionId s;
     quotationId := quotationId s; assistantMessageRef := v;
     localStorage := localStorage s; console := console s |}.

Definition localStorage_setItem (k v : jsstring) (s : State) : State :=
  {| messages := messages s; input := input s; isLoading := isLoading s;
     attachments := attachments s; sessionId := sessionId s;
     quotationId := quotationId s; assistantMessageRef := assistantMessageRef s;
     localStorage := <[k := v]> (localStorage s); console := console s |}.

Definition localStorage_removeItem (k : jsstring) (s : State) : State :=
  {| messages := messages s; input := input s; isLoading := isLoading s;
     attachments := attachments s; sessionId := sessionId s;
     quotationId := quotationId s; assistantMessageRef := assistantMessageRef s;
     localStorage := delete k (localStorage s); console := console s |}.

Definition console_error (e : ConsoleEntry) (s : State) : State :=
  {| messages := messages s; input := input s; isLoading := isLoading s;
     attachments := attachments s; sessionId := sessionId s;
     quotationId := quotationId s; assistantMessageRef := assistantMessageRef s;
     localStorage := localStorage s; console := console s ++ [e] |}.

Definition greeting : Message :=
  {| role := assistant;
     content := js "Hello! I am your AI Construction Consultant. How can I help you regarding your project cost or quotation?";
     msg_attachments := None |}.

(** The state of a freshly mounted component, before its effects run,
    in a browser whose [localStorage] holds [store]. *)
Definition mount (store : gmap jsstring jsstring) : State :=
  {| messages := [greeting]; input := []; isLoading := false; attachments := [];
     sessionId := None; quotationId := None; assistantMessageRef := -1;
     localStorage := store; console := [] |}.

(** [generateSessionId]; [rnd] is the value of
    [Math.random().toString(36).substring(2, 15)]. *)
Definition generateSessionId (rnd : jsstring) : jsstring := js "session-" ++ rnd.

(** The session-initialisation effect ([useEffect(..., [])]). *)
Definition useEffect_init (rnd : jsstring) (s : State) : State :=
  let newSessionId := generateSessionId rnd in
  let s := setSessionId (Some newSessionId) s in
  let s := localStorage_setItem (js "chat_session_id") newSessionId s in
  setQuotationId None s.

Definition handleNewChat (rnd : jsstring) (s : State) : State :=
  let newSessionId := generateSessionId rnd in
  let s := setSessionId (Some newSessionId) s in
  let s := setMessages (fun _ => [greeting]) s in
  let s := setQuotationId None s in
  let s := localStorage_setItem (js "chat_session_id") newSessionId s in
  let s := localStorage_removeItem (js "quotation_id") s in
  localStorage_removeItem (js "chat_messages") s.

(** [x || ''] on a string. *)
Definition or_empty (x : jsstring) : jsstring :=
  match x with
  | [] => []
  | _ :: _ => x
  end.

(** [String(x)] on a string. *)
Definition String_ (x : jsstring) : jsstring := x.

Definition historyForRequest (msgs : list Message) : list HistoryEntry :=
  (fun msg => {| h_role := role msg; h_content := String_ (or_empty (content msg)) |})
    <$> filter (fun msg => role msg = user ∨ role msg = assistant) msgs.

(** [!input.trim() && attachments.length === 0]. *)
Definition nothing_to_send (s : State) : bool :=
  negb (truthy (Some (trim (input s)))) && (length (attachments s) =? 0)%nat.

(** The [disabled] attribute of the Send button. *)
Definition send_disabled (s : State) : bool :=
  isLoading s || nothing_to_send s.

(** The updater of the content branch: replace the content of the
    message at the recorded index, if that index is in range and holds
    an assistant message. *)
Definition update_assistant (idx : Z) (fullResponse : jsstring)
    (prev : list Message) : list Message :=
  let updated := prev in
  if (0 <=? idx) && (idx <? Z.of_nat (length updated)) then
    match updated !! Z.to_nat idx with
    | Some m =>
        if bool_decide (role m = assistant) then
          <[Z.to_nat idx := {| role := role m; content := fullResponse;
                               msg_attachments := msg_attachments m |}]> updated
        else updated
    | None => updated
    end
  else updated.

(** [s += v] where [v] may be [undefined]. *)
Definition append_value (s : jsstring) (v : option jsstring) : jsstring :=
  s ++ default (js "undefined") v.

(** The message built from the input box and the pending attachments. *)
Definition userMsg (s : State) : Message :=
  {| role := user; content := input s;
     msg_attachments :=
       Some ((fun att => {| ma_type := a_type att; ma_url := a_url att;
                            ma_name := a_name att |}) <$> attachments s) |}.

(** An assistant message without attachments. *)
Definition assistantMsg (c : jsstring) : Message :=
  {| role := assistant; content := c; msg_attachments := None |}.

Section WithPlatform.
Context `{Platform}.

Definition apiUrl : jsstring :=
  if truthy NEXT_PUBLIC_API_URL then default [] NEXT_PUBLIC_API_URL
  else js "http://localhost:8001".

(** The statements inside the inner [try]: the result is the thrown
    value, or the locals and state after normal completion. *)
Definition sse_try (line : jsstring) (fullResponse : jsstring) (s : State)
    : JSError + (jsstring * State) :=
  match JSON_parse (slice 6 line) with
  | None => inl {| message := Some (js "Unexpected token") |}
  | Some data =>
      if bool_decide (sse_type data = Some (js "content")) then
        let fullResponse := append_value fullResponse (sse_content data) in
        inr (fullResponse,
             setMessages (fun prev =>
               update_assistant (assistantMessageRef s) fullResponse prev) s)
      else if bool_decide (sse_type data = Some (js "done")) then
        if truthy (sse_quotation_id data) then
          let s := setQuotationId (sse_quotation_id data) s in
          inr (fullResponse,
               localStorage_setItem (js "quotation_id")
                 (default [] (sse_quotation_id data)) s)
        else inr (fullResponse, s)
      else if bool_decide (sse_type data = Some (js "error")) then
        inl (Error (default [] (sse_content data)))
      else inr (fullResponse, s)
  end.

(** One iteration of [for (const line of lines)], with the inner
    [catch], which logs whatever the [try] threw and goes on. *)
Definition process_line (acc : jsstring * State) (line : jsstring)
    : jsstring * State :=
  let '(fullResponse, s) := acc in
  if startsWith (js "data: ") line then
    match sse_try line fullResponse s with
    | inr r => r
    | inl e => (fullResponse, console_error (LogSSEParseError e line) s)
    end
  else (fullResponse, s).

(** The locals of the read loop. *)
Record Locals := {
  decoder : DecoderState;
  buffer : jsstring;
  fullResponse : jsstring
}.

(** One iteration of [while (true)] on a chunk that was read. *)
Definition read_step (l : Locals) (s : State) (value : Chunk) : Locals * State :=
  let '(text, dec) := TextDecoder_decode (decoder l) value in
  let buffer := buffer l ++ text in
  let '(lines, last_line) := pop (split_nl buffer) in
  let buffer := or_empty (default [] last_line) in
  let '(full, s) := foldl process_line (fullResponse l, s) lines in
  ({| decoder := dec; buffer := buffer; fullResponse := full |}, s).

Fixpoint read_loop (cs : list Chunk) (l : Locals) (s : State) : Locals * State :=
  match cs with
  | [] => (l, s)
  | value :: cs' =>
      let '(l, s) := read_step l s value in
      read_loop cs' l s
  end.

(** The text of the error bubble chosen by the outer [catch]. *)
Definition errorMessage (error : JSError) : jsstring :=
  let has (needle : string) :=
    match message error with
    | Some m => includes (js needle) m
    | None => false
    end in
  if has "422" then js "Invalid request format. Please try again."
  else if has "status" then js "Server error: " ++ default [] (message error)
  else js "Sorry, I encountered an error connecting to the server.".

(** The outer [catch]. *)
Definition catch_send (error : JSError) (s : State) : State :=
  let s := console_error (LogSendError error) s in
  let errorMessage := errorMessage error in
  let errorMsg := assistantMsg errorMessage in
  let s := setMessages (fun prev => prev ++ [errorMsg]) s in
  set_assistantMessageRef (-1) s.

(** The body of the outer [try]: the requests issued, and either the
    thrown value with the state at the throw, or the state at normal
    completion. [s0] is the render the handler closed over. An updater
    passed to [setMessages] is applied where it is passed, so the ref the
    placeholder's updater assigns is written there, before the loop. *)
Definition try_send (net : Network) (s0 : State) (currentInput : jsstring)
    (currentAttachments : list Attachment) (history : list HistoryEntry)
    (s : State) : list Request * (JSError * State + State) :=
  if (0 <? length currentAttachments)%nat then
    let formData :=
      {| fd_message := currentInput;
         fd_history := history;
         fd_session_id := if truthy (sessionId s0) then sessionId s0 else None;
         fd_quotation_id := if truthy (quotationId s0) then quotationId s0 else None;
         fd_files := a_file <$> currentAttachments |} in
    let req := AxiosPost (apiUrl ++ js "/api/v1/chat") formData
                 (js "multipart/form-data") 120000 in
    match axios_reply net with
    | AxiosRejected e => ([req], inl (e, s))
    | AxiosOk response quotation_id =>
        let aiMsg := assistantMsg response in
        let s := setMessages (fun prev => prev ++ [aiMsg]) s in
        if truthy quotation_id then
          let s := setQuotationId quotation_id s in
          ([req], inr (localStorage_setItem (js "quotation_id")
                         (default [] quotation_id) s))
        else ([req], inr s)
    end
  else
    let body :=
      {| sb_message := currentInput;
         sb_history := history;
         sb_session_id := sessionId s0;
         sb_quotation_id := quotationId s0 |} in
    let req := FetchPost (apiUrl ++ js "/api/v1/chat/stream")
                 (js "application/json") body in
    match fetch_reply net with
    | FetchRejected e => ([req], inl (e, s))
    | FetchResponse ok status text body =>
        if negb ok then
          match text with
          | inl e => ([req], inl (e, s))
          | inr errorText =>
              let s := console_error (LogHttpError status errorText) s in
              ([req], inl (Error (js "HTTP error! status: " ++ of_N status), s))
          end
        else
          let s := set_assistantMessageRef (Z.of_nat (length (messages s))) s in
          let s := setMessages (fun prev => prev ++ [assistantMsg []]) s in
          match body with
          | None => ([req], inr s)
          | Some reader =>
              let '(_, s) :=
                read_loop (chunks reader)
                  {| decoder := TextDecoder_new; buffer := []; fullResponse := [] |} s in
              match ending reader with
              | EndOfStream => ([req], inr s)
              | ReadRejected e => ([req], inl (e, s))
              end
          end
    end.

Definition sendMessage (net : Network) (s0 : State) : State * list Request :=
  if nothing_to_send s0 then (s0, [])
  else
    let userMsg := userMsg s0 in
    let currentInput := input s0 in
    let s := setInput [] s0 in
    let currentAttachments := attachments s0 in
    let s := setAttachments [] s in
    let history := historyForRequest (messages s0) in
    let s := setMessages (fun prev => prev ++ [userMsg]) s in
    let s := setIsLoading true s in
    let '(reqs, r) := try_send net s0 currentInput currentAttachments history s in
    let s := match r with
             | inr s => s
             | inl (error, s) => catch_send error s
             end in
    (setIsLoading false s, reqs).

End WithPlatform.

(** The quotation banner of the rendered component: present iff
    [quotationId] is truthy; it shows the first twelve code units of the
    id and a [DownloadButtons] with that id and no [disabled] prop. *)
Record Banner := { banner_label : jsstring; banner_download_for : jsstring }.

Definition render_banner (s : State) : option Banner :=
  if truthy (quotationId s) then
    let q := default [] (quotationId s) in
    Some {| banner_label := js "Quotation Ready: " ++ take 12 q ++ js "...";
            banner_download_for := q |}
  else None.

End ChatInterface.

(** ** frontend/components/DownloadButtons.tsx *)

Module DownloadButtons.

Inductive Format := pdf | excel | both.

Definition format_name (f : Format) : jsstring :=
  match f with
  | pdf => js "pdf"
  | excel => js "excel"
  | both => js "both"
  end.

Record Props := { quotationId : jsstring; disabled : bool }.

(** The props of [<DownloadButtons quotationId={q} />]: [disabled]
    takes its default, [false]. *)
Definition props_of (q : jsstring) : Props := {| quotationId := q; disabled := false |}.

(** The [downloading] state cell. *)
Definition State : Type := option Format.

(** The [disabled] attribute of each of the three buttons. *)
Definition button_disabled (p : Props) (downloading : State) : bool :=
  disabled p || bool_decide (downloading ≠ None).

Section WithPlatform.
Context `{Platform}.

(** [handleDownload], up to the point where the request has been
    issued: the new [downloading] cell and the requests sent. *)
Definition handleDownload (p : Props) (format : Format) (downloading : State)
    : State * list Request :=
  if disabled p || bool_decide (downloading ≠ None) then (downloading, [])
  else
    let endpoint :=
      ChatInterface.apiUrl ++ js "/api/v1/quotations/" ++ quotationId p
        ++ js "/download?format=" ++ format_name format in
    (Some format, [AxiosGetBlob endpoint]).

End WithPlatform.

End DownloadButtons.

(** ** frontend/app/quotations/[id]/page.tsx *)

Module QuotationStatusPage.

(** The [status] cell: the body of the status endpoint's reply, of
    which the page reads the [status] string. *)
Record StatusReply := { status : jsstring; progress : option N }.

Record State := {
  quotationId : jsstring;
  quotation_loaded : bool;
  status_cell : option StatusReply;
  loading : bool;
  error : jsstring
}.

(** [status?.status === v]. *)
Definition status_is (s : State) (v : string) : bool :=
  match status_cell s with
  | Some r => bool_decide (status r = js v)
  | None => false
  end.

(** Which of the three [return]s renders, and in the main one whether
    the download section and the failure notice are present. *)
Inductive View :=
| LoadingView
| ErrorView (error : jsstring)
| MainView (download : option DownloadButtons.Props) (failed_notice : bool).

Definition render (s : State) : View :=
  if loading s && negb (quotation_loaded s) then LoadingView
  else if truthy (Some (error s)) && negb (quotation_loaded s) then ErrorView (error s)
  else
    MainView
      (if status_is s "completed"
       then Some (DownloadButtons.props_of (quotationId s)) else None)
      (status_is s "failed").

(** The poller's condition for fetching again. *)
Definition should_poll (s : State) : bool :=
  negb (status_is s "completed") && negb (status_is s "failed").

End QuotationStatusPage.

(** ** The quotation state machine (backend) *)

Module QuotationStateMachine.

(** Modelled from the spec: the [status] enumeration of a quotation; the
    backend that declares it is not part of the sources. *)
Inductive Status :=
| pending | processing | data_collection | cost_calculation | completed | failed.

#[global] Instance Status_eq_dec : EqDecision Status.
Proof. solve_decision. Defined.



(** Modelled from the spec: the fixed progress mapping of [get_status];
    [failed] keeps the last known value (the backend is not part of the
    sources). *)
Definition progress_of (s : Status) (last : N) : N :=
  match s with
  | pending => 0
  | processing => 10
  | data_collection => 40
  | cost_calculation => 70
  | completed => 100
  | failed => last
  end%N.

Inductive SMError := NotFoundError | InvalidTransitionError.

Section Machine.
(** The payloads of the two stages are opaque to the state machine. *)
Variables ExtractedData CostBreakdown Score Cost : Type.

(** Modelled from the spec: a quotation with its one-to-one
    [QuotationData], the failure reason and the progress shown by
    [get_status] (the backend is not part of the sources). *)
Record Quotation := {
  status : Status;
  progress : N;
  failure_reason : option string;
  extracted_data : option (ExtractedData * Score);
  pricing : option (CostBreakdown * Cost);
  updated_at : nat
}.

(** A status write at time [now]. *)
Definition set_status (st : Status) (now : nat) (q : Quotation) : Quotation :=
  {| status := st; progress := progress_of st (progress q);
     failure_reason := failure_reason q; extracted_data := extracted_data q;
     pricing := pricing q; updated_at := now |}.

Definition set_extracted (d : ExtractedData * Score) (q : Quotation) : Quotation :=
  {| status := status q; progress := progress q;
     failure_reason := failure_reason q; extracted_data := Some d;
     pricing := pricing q; updated_at := updated_at q |}.

Definition set_pricing (d : CostBreakdown * Cost) (q : Quotation) : Quotation :=
  {| status := status q; progress := progress q;
     failure_reason := failure_reason q; extracted_data := extracted_data q;
     pricing := Some d; updated_at := updated_at q |}.

Definition set_reason (r : string) (q : Quotation) : Quotation :=
  {| status := status q; progress := progress q;
     failure_reason := Some r; extracted_data := extracted_data q;
     pricing := pricing q; updated_at := updated_at q |}.

(** The result of a mutating call on one quotation: an error, or the
    quotation after the call together with the statuses the call
    wrote, in order. *)
Definition Outcome : Type := SMError + (Quotation * list Status).

(** Modelled from the spec: [begin_processing] is [pending →
    processing] and an [InvalidTransitionError] otherwise (the backend
    is not part of the sources). *)
Definition begin_processing_on (now : nat) (q : Quotation) : Outcome :=
  match status q with
  | pending => inr (set_status processing now q, [processing])
  | _ => inl InvalidTransitionError
  end.

(** Modelled from the spec: [record_extraction] moves a [processing]
    quotation to [data_collection] and stores the data; it fails when
    the quotation is already past this stage (a second recording
    observes [InvalidTransitionError]) or terminal, and no transition
    may be skipped (the backend is not part of the sources). *)
Definition record_extraction_on (d : ExtractedData) (c : Score) (now : nat)
    (q : Quotation) : Outcome :=
  match status q with
  | processing =>
      inr (set_extracted (d, c) (set_status data_collection now q), [data_collection])
  | _ => inl InvalidTransitionError
  end.

(** Modelled from the spec: [record_pricing] transitions to
    [cost_calculation], stores the data, then transitions to
    [completed]; same failure policy (the backend is not part of the
    sources). *)
Definition record_pricing_on (b : CostBreakdown) (t : Cost) (now : nat)
    (q : Quotation) : Outcome :=
  match status q with
  | data_collection =>
      let q := set_status cost_calculation now q in
      let q := set_pricing (b, t) q in
      inr (set_status completed now q, [cost_calculation; completed])
  | _ => inl InvalidTransitionError
  end.

(** Modelled from the spec: [mark_failed] transitions to [failed] and
    stores the reason, from the three states from which the graph makes
    [failed] reachable; it is idempotent on a [failed] quotation. From
    [completed], and from [pending], which the graph gives no edge to
    [failed], the attempted change violates the state machine and is an
    [InvalidTransitionError] (the backend is not part of the sources). *)
Definition mark_failed_on (reason : string) (now : nat) (q : Quotation) : Outcome :=
  match status q with
  | failed => inr (q, [])
  | processing | data_collection | cost_calculation =>
      inr (set_reason reason (set_status failed now q), [failed])
  | pending | completed => inl InvalidTransitionError
  end.

(** The four mutating operations, addressed to a quotation id. *)
Inductive Op :=
| begin_processing (id : string)
| record_extraction (id : string) (d : ExtractedData) (c : Score)
| record_pricing (id : string) (b : CostBreakdown) (t : Cost)
| mark_failed (id : string) (reason : string).

Definition op_id (o : Op) : string :=
  match o with
  | begin_processing id | record_extraction id _ _
  | record_pricing id _ _ | mark_failed id _ => id
  end.

Definition op_on (o : Op) (now : nat) (q : Quotation) : Outcome :=
  match o with
  | begin_processing _ => begin_processing_on now q
  | record_extraction _ d c => record_extraction_on d c now q
  | record_pricing _ b t => record_pricing_on b t now q
  | mark_failed _ r => mark_failed_on r now q
  end.

(** Modelled from the spec: a call on the store fails with
    [NotFoundError] for an unknown id, and otherwise read-modify-writes
    the one quotation (the backend is not part of the sources). *)
Definition call (o : Op) (now : nat) (store : gmap string Quotation)
    : SMError + (gmap string Quotation * list Status) :=
  match store !! op_id o with
  | None => inl NotFoundError
  | Some q =>
      match op_on o now q with
      | inl e => inl e
      | inr (q', written) => inr (<[op_id o := q']> store, written)
      end
  end.

(** A call as the caller's next state: a failed call leaves the store
    as it was. The second component lists the status writes. *)
Definition step (o : Op) (now : nat) (store : gmap string Quotation)
    : gmap string Quotation * list (string * Status) :=
  match call o now store with
  | inl _ => (store, [])
  | inr (store', written) => (store', (fun s => (op_id o, s)) <$> written)
  end.

(** A sequence of calls, the clock advancing by one per call. *)
Fixpoint run (ops : list Op) (now : nat) (store : gmap string Quotation)
    : gmap string Quotation * list (string * Status) :=
  match ops with
  | [] => (store, [])
  | o :: ops' =>
      let '(store', w) := step o now store in
      let '(store'', w') := run ops' (S now) store' in
      (store'', w ++ w')
  end.

(** The statuses one quotation went through: where it started, then
    every status written to it. *)
Definition status_history (id : string) (q0 : Quotation)
    (writes : list (string * Status)) : list Status :=
  status q0 :: (snd <$> filter (fun w => fst w = id) writes).

(** Modelled from the spec: [get_status] reads status and progress
    (the backend is not part of the sources). *)
Definition get_status (id : string) (store : gmap string Quotation)
    : SMError + (Status * N * nat) :=
  match store !! id with
  | None => inl NotFoundError
  | Some q => inr (status q, progress q, updated_at q)
  end.

End Machine.

Arguments status {_ _ _ _} _.
Arguments progress {_ _ _ _} _.
Arguments failure_reason {_ _ _ _} _.
Arguments extracted_data {_ _ _ _} _.
Arguments pricing {_ _ _ _} _.
Arguments updated_at {_ _ _ _} _.
Arguments set_status {_ _ _ _} _ _ _.
Arguments set_extracted {_ _ _ _} _ _.
Arguments set_pricing {_ _ _ _} _ _.
Arguments set_reason {_ _ _ _} _ _.
Arguments begin_processing_on {_ _ _ _} _ _.
Arguments record_extraction_on {_ _ _ _} _ _ _ _.
Arguments record_pricing_on {_ _ _ _} _ _ _ _.
Arguments mark_failed_on {_ _ _ _} _ _ _.
Arguments begin_processing {_ _ _ _} _.
Arguments record_extraction {_ _ _ _} _ _ _.
Arguments record_pricing {_ _ _ _} _ _ _.
Arguments mark_failed {_ _ _ _} _ _.
Arguments op_id {_ _ _ _} _.
Arguments op_on {_ _ _ _} _ _ _.
Arguments call {_ _ _ _} _ _ _.
Arguments step {_ _ _ _} _ _ _.
Arguments run {_ _ _ _} _ _ _.
Arguments status_history {_ _ _ _} _ _ _.
Arguments get_status {_ _ _ _} _ _.


(** A freshly created quotation, with payloads left abstract. *)
Definition created (now : nat) : Quotation unit unit unit unit :=
  {| status := pending; progress := 0; failure_reason := None;
     extracted_data := None; pricing := None; updated_at := now |}.


(** A run whose extraction stage gives up: an early [mark_failed], the
    start of the pipeline, the failure, and calls that come too late. *)
Definition failing_run : list (Op unit unit unit unit) :=
  [mark_failed "q1" "early"; begin_processing "q1";
   mark_failed "q1" "extraction failed"; record_extraction "q1" tt tt;
   mark_failed "q1" "again"].

End QuotationStateMachine.

(** ** What a streaming dispatch delivered *)

Module Dispatch.
Import ChatInterface.

Section WithPlatform.
Context `{Platform}.

(** The text of a body: the decoded chunks, concatenated. *)
Fixpoint decoded (dec : DecoderState) (cs : list Chunk) : jsstring :=
  match cs with
  | [] => []
  | c :: cs' =>
      let '(text, dec') := TextDecoder_decode dec c in
      text ++ decoded dec' cs'
  end.

(** The lines of a body: the pieces of its text that a line feed
    terminates. *)
Definition received_lines (cs : list Chunk) : list jsstring :=
  removelast (split_nl (decoded TextDecoder_new cs)).

(** The events of a body: its [data: ] lines that parse. *)
Definition event_of_line (line : jsstring) : option SSEData :=
  if startsWith (js "data: ") line then JSON_parse (slice 6 line) else None.

Definition received_events (cs : list Chunk) : list SSEData :=
  omap event_of_line (received_lines cs).

End WithPlatform.

(** The text fragment of a [{type: content}] event. *)
Definition fragment_of (d : SSEData) : option jsstring :=
  if bool_decide (sse_type d = Some (js "content"))
  then Some (default (js "undefined") (sse_content d))
  else None.

Definition content_fragments (evs : list SSEData) : list jsstring :=
  omap fragment_of evs.

Definition is_error_event (d : SSEData) : bool :=
  bool_decide (sse_type d = Some (js "error")).

(** The placeholder shape: the list ends with the assistant message of
    this dispatch, whose index the ref holds and whose content is
    [fullResponse]. *)
Definition tracking (pre : list Message) (acc : jsstring * State) : Prop :=
  messages acc.2 = pre ++ [assistantMsg acc.1]
  ∧ assistantMessageRef acc.2 = Z.of_nat (length pre).

(** The history entry a message reduces to. *)
Definition role_content (m : Message) : HistoryEntry :=
  {| h_role := role m; h_content := content m |}.

(** The [history] a request carries, if it is a chat request. *)
Definition request_history (r : Request) : option (list HistoryEntry) :=
  match r with
  | AxiosPost _ form _ _ => Some (fd_history form)
  | FetchPost _ _ body => Some (sb_history body)
  | AxiosGetBlob _ => None
  end.

(** The [quotation_id] a chat request carries. *)
Definition request_quotation_id (r : Request) : option jsstring :=
  match r with
  | AxiosPost _ form _ _ => fd_quotation_id form
  | FetchPost _ _ body => sb_quotation_id body
  | AxiosGetBlob _ => None
  end.

(** The download controls a view of the status page holds. *)
Definition offers_download (v : QuotationStatusPage.View)
    : option DownloadButtons.Props :=
  match v with
  | QuotationStatusPage.MainView d _ => d
  | _ => None
  end.


End Dispatch.

(** ** A concrete platform, for evaluating the client on sample streams *)

Module Sample.
Import ChatInterface.

(** [s] without the suffix [suf], if it ends with it. *)
Definition strip_suffix (suf s : jsstring) : option jsstring :=
  if startsWith (reverse suf) (reverse s)
  then Some (take (length s - length suf) s) else None.

(** A JSON text of the samples, written with apostrophes for its
    quotation marks. *)
Definition json (s : string) : jsstring :=
  (fun c => if (c =? 39)%N then 34%N else c) <$> js s.

(** [s] without the prefix [pre] and the suffix [suf]. *)
Definition between (pre suf : jsstring) (s : jsstring) : option jsstring :=
  if startsWith pre s
  then strip_suffix suf (drop (length pre) s) else None.

(** A parser for the four payload shapes the backend emits, with string
    values free of escapes; anything else throws. *)
Definition parse (s : jsstring) : option SSEData :=
  match between (json "{'type':'content','content':'") (json "'}") s with
  | Some c => Some {| sse_type := Some (js "content"); sse_content := Some c;
                      sse_quotation_id := None |}
  | None =>
  match between (json "{'type':'error','content':'") (json "'}") s with
  | Some c => Some {| sse_type := Some (js "error"); sse_content := Some c;
                      sse_quotation_id := None |}
  | None =>
  match between (json "{'type':'done','quotation_id':'") (json "'}") s with
  | Some q => Some {| sse_type := Some (js "done"); sse_content := None;
                      sse_quotation_id := Some q |}
  | None =>
      if bool_decide (s = json "{'type':'done'}")
      then Some {| sse_type := Some (js "done"); sse_content := None;
                   sse_quotation_id := None |}
      else None
  end end end.

(** Chunks that are already text, so that decoding is the identity. *)
#[global] Instance platform : Platform := {|
  Chunk := jsstring;
  DecoderState := unit;
  TextDecoder_new := tt;
  TextDecoder_decode := fun st c => (c, st);
  JSON_parse := parse;
  NEXT_PUBLIC_API_URL := None
|}.

Definition lf : jsstring := [10%N].

(** The user typed [hi] into a freshly initialised session. *)
Definition typed_hi : State :=
  setInput (js "hi") (useEffect_init (js "k3x9") (mount ∅)).

(** A successful streaming reply with the given chunks. *)
Definition streaming (cs : list jsstring) : Network :=
  {| axios_reply := AxiosRejected {| message := None |};
     fetch_reply := FetchResponse true 200 (inr [])
                      (Some {| chunks := cs; ending := EndOfStream |}) |}.

Definition data_line (payload : string) : jsstring :=
  js "data: " ++ json payload ++ lf ++ lf.

(** A reply in two fragments, the first cut in the middle by a chunk
    boundary, then [done] with a quotation id. *)
Definition hello_world : list jsstring :=
  [js "data: " ++ json "{'type':'content','content':'Hel";
   json "lo'}" ++ lf ++ lf ++ data_line "{'type':'content','content':' world'}";
   data_line "{'type':'done','quotation_id':'quot-1'}"].

(** A fragment, then a terminal error event. *)
Definition hel_then_error : list jsstring :=
  [data_line "{'type':'content','content':'Hel'}";
   data_line "{'type':'error','content':'backend down'}"].

(** Only white space typed, nothing attached. *)
Definition typed_blank : State :=
  setInput (js "   ") (useEffect_init (js "k3x9") (mount ∅)).

End Sample.

(** ** ChatInterface.tsx: the attachment tray *)

Module Attachments.
Import ChatInterface.

(** [prev.filter((x, i) => p(x, i))], the index counted from [i]. *)
Fixpoint filter_index {A} (p : A → nat → bool) (i : nat) (l : list A) : list A :=
  match l with
  | [] => []
  | x :: l' =>
      if p x i then x :: filter_index p (S i) l' else filter_index p (S i) l'
  end.

(** The attachment built for a selected file; [url] is what
    [URL.createObjectURL(file)] returned. *)
Definition attachment_of (f : File) (url : jsstring) : Attachment :=
  {| a_type := if startsWith (js "image/") (file_type f) then image else file;
     a_file := f; a_url := url; a_name := file_name f |}.

(** [handleFileSelect] on the files of the change event ([e.target.files
    || []]), each paired with its object URL. *)
Definition handleFileSelect (files : list (File * jsstring)) (s : State) : State :=
  foldl (fun s fu =>
           setAttachments (attachments s ++ [attachment_of fu.1 fu.2]) s)
        s files.

(** [removeAttachment]: the thrown [TypeError] when [attachments[index]]
    is undefined, or the new state with the object URLs revoked. *)
Definition removeAttachment (index : nat) (s : State)
    : JSError + (State * list jsstring) :=
  match attachments s !! index with
  | None =>
      inl (Error (js "Cannot read properties of undefined (reading 'url')"))
  | Some attachment =>
      inr (setAttachments
             (filter_index (fun _ i => negb (i =? index)%nat) 0 (attachments s)) s,
           [a_url attachment])
  end.

End Attachments.

(** ** components/MessageBubble.tsx *)

Module MessageBubble.
Import ChatInterface Language.

Inductive Dir := rtl | ltr.

(** What a rendered bubble shows: the side and avatar ([isUser]), the
    [dir] attribute, the attachment previews and the markdown source. *)
Record Bubble := {
  isUser : bool;
  dir : Dir;
  previews : list MessageAttachment;
  markdown : jsstring
}.

(** The component: [None] is the [return null] of an empty message. *)
Definition MessageBubble (message : Message) : option Bubble :=
  let isUser := bool_decide (role message = user) in
  let detectedLang := detectLanguage (content message) in
  let isRTL := bool_decide (detectedLang = ar) in
  if negb (truthy (Some (content message)))
     && match msg_attachments message with
        | None => true
        | Some l => (length l =? 0)%nat
        end
  then None
  else Some {| isUser := isUser;
               dir := if isRTL then rtl else ltr;
               previews := default [] (msg_attachments message);
               markdown := content message |}.

End MessageBubble.

(** ** DownloadButtons.tsx: a download to its end *)

Module DownloadFlow.
Import DownloadButtons.

(** What the user gets from a click, besides the request. *)
Inductive Effect :=
| SaveAs (filename : jsstring) (data : list N)
| Alert (text : jsstring).

Definition extension (format : Format) : jsstring :=
  match format with
  | both => js "zip"
  | pdf => js "pdf"
  | excel => js "xlsx"
  end.

Section WithPlatform.
Context `{Platform}.

(** [handleDownload] from the click to the [finally]: the [downloading]
    cell it leaves, the requests sent and the effects; [reply] is what
    [axios.get] resolves or rejects with. *)
Definition handleDownload_settled (p : Props) (format : Format)
    (downloading : State) (reply : JSError + list N)
    : State * list Request * list Effect :=
  if disabled p || bool_decide (downloading ≠ None) then (downloading, [], [])
  else
    let endpoint :=
      ChatInterface.apiUrl ++ js "/api/v1/quotations/" ++ quotationId p
        ++ js "/download?format=" ++ format_name format in
    match reply with
    | inr data =>
        (None, [AxiosGetBlob endpoint],
         [SaveAs (js "quotation_" ++ quotationId p ++ js "." ++ extension format)
                 data])
    | inl _ =>
        (None, [AxiosGetBlob endpoint],
         [Alert (js "Failed to download " ++ format_name format
                   ++ js ". Please try again.")])
    end.

End WithPlatform.

End DownloadFlow.

(** ** quotations/[id]/page.tsx: loading the page *)

Module StatusPageHandlers.
Import QuotationStatusPage.

(** What a [GET] of the page resolves with, or the [detail] of the
    error response it rejects with ([None] when there is none). *)
Inductive Fetched (A : Type) :=
| Resolved (data : A)
| Rejected (detail : option jsstring).
Arguments Resolved {A} _.
Arguments Rejected {A} _.

(** The state the page mounts in, for the quotation [id] of the route. *)
Definition mount (id : jsstring) : State :=
  {| quotationId := id; quotation_loaded := false; status_cell := None;
     loading := true; error := [] |}.

(** [detail || fallback]. *)
Definition detail_or (detail : option jsstring) (fallback : string) : jsstring :=
  if truthy detail then default [] detail else js fallback.

(** The body of the quotation reply is stored as it comes; the page
    only ever tests the stored value for truthiness, so the reply is
    given by the truthiness of its body: [true] for a quotation object,
    [false] for a body such as [null] or the empty string. *)
Definition fetchQuotation (r : Fetched bool) (s : State) : State :=
  match r with
  | Resolved data =>
      {| quotationId := quotationId s; quotation_loaded := data;
         status_cell := status_cell s; loading := loading s; error := error s |}
  | Rejected detail =>
      {| quotationId := quotationId s; quotation_loaded := quotation_loaded s;
         status_cell := status_cell s; loading := false;
         error := detail_or detail "Failed to load quotation" |}
  end.

Definition fetchStatus (r : Fetched StatusReply) (s : State) : State :=
  match r with
  | Resolved data =>
      {| quotationId := quotationId s; quotation_loaded := quotation_loaded s;
         status_cell := Some data; loading := false; error := error s |}
  | Rejected detail =>
      {| quotationId := quotationId s; quotation_loaded := quotation_loaded s;
         status_cell := status_cell s; loading := false;
         error := detail_or detail "Failed to load status" |}
  end.

(** A settled request of the page. *)
Inductive Arrival :=
| QuotationArrived (r : Fetched bool)
| StatusArrived (r : Fetched StatusReply).

Definition arrive (s : State) (a : Arrival) : State :=
  match a with
  | QuotationArrived r => fetchQuotation r s
  | StatusArrived r => fetchStatus r s
  end.

(** Whether a settled request leaves a quotation the page holds in
    place: every one does, except a quotation reply with a falsy body,
    which [setQuotation] stores over it. *)
Definition keeps_quotation (a : Arrival) : bool :=
  match a with
  | QuotationArrived (Resolved false) => false
  | _ => true
  end.

(** The tick of the three-second interval: whether it fetches the
    status again. *)
Definition interval_fetches (s : State) : bool := should_poll s.

Definition getStatusColor (status : jsstring) : jsstring :=
  if bool_decide (status = js "completed") then js "#2e7d32"
  else if bool_decide (status = js "failed") then js "#d32f2f"
  else if bool_decide (status = js "processing")
          || bool_decide (status = js "data_collection")
          || bool_decide (status = js "cost_calculation") then js "#0070f3"
  else js "#666".

End StatusPageHandlers.

(** ** What a body and a request carry, further *)

Module Observations.

(** [pieces.join('\n')]. *)
Fixpoint join_nl (pieces : list jsstring) : jsstring :=
  match pieces with
  | [] => []
  | [p] => p
  | p :: ps => p ++ 10%N :: join_nl ps
  end.



(** The [session_id] a chat request carries. *)
Definition request_session_id (r : Request) : option jsstring :=
  match r with
  | AxiosPost _ form _ _ => fd_session_id form
  | FetchPost _ _ body => sb_session_id body
  | AxiosGetBlob _ => None
  end.

(** The text a request sends as the user's message. *)
Definition request_message (r : Request) : option jsstring :=
  match r with
  | AxiosPost _ form _ _ => Some (fd_message form)
  | FetchPost _ _ body => Some (sb_message body)
  | AxiosGetBlob _ => None
  end.

(** The state in which the read loop of a streaming dispatch starts:
    the input and the tray cleared, the user's message and the empty
    assistant message appended, the ref on the latter. *)
Definition stream_start (s : ChatInterface.State) : ChatInterface.State :=
  let s1 := ChatInterface.setIsLoading true
              (ChatInterface.setMessages (fun prev => prev ++ [ChatInterface.userMsg s])
                 (ChatInterface.setAttachments [] (ChatInterface.setInput [] s))) in
  ChatInterface.setMessages (fun prev => prev ++ [ChatInterface.assistantMsg []])
    (ChatInterface.set_assistantMessageRef
       (Z.of_nat (length (ChatInterface.messages s1))) s1).

(** How a dispatch leaves the loop: normally, or through the outer
    [catch]; then the [finally]. *)
Definition stream_finish (e : StreamEnd) (s : ChatInterface.State)
    : ChatInterface.State :=
  ChatInterface.setIsLoading false
    match e with
    | EndOfStream => s
    | ReadRejected err => ChatInterface.catch_send err s
    end.

End Observations.

(** ** Further sample inputs *)

(** ** The lines the read loop hands on *)

Module LineTrace.
Import ChatInterface.

Section WithPlatform.
Context `{Platform}.

(** The array [lines] of one iteration of the read loop, after
    [lines.pop()]: the lines its [for] loop hands to the handler. *)
Definition lines_of_step (l : Locals) (value : Chunk) : list jsstring :=
  let '(text, _) := TextDecoder_decode (decoder l) value in
  (pop (split_nl (buffer l ++ text))).1.

(** The lines handed on while the chunks [cs] are read, iteration after
    iteration, each iteration starting from the locals and the state the
    one before it left. *)
Fixpoint handed (cs : list Chunk) (l : Locals) (s : State) : list jsstring :=
  match cs with
  | [] => []
  | value :: cs' =>
      let '(l', s') := read_step l s value in
      lines_of_step l value ++ handed cs' l' s'
  end.

End WithPlatform.

End LineTrace.

(** ** A dispatch among other tasks of the page *)

Module EventLoop.
Import ChatInterface Observations.

Section WithPlatform.
Context `{Platform}.

(** What the browser runs while a streaming dispatch is suspended in
    [await reader.read()]: the continuation of the dispatch on the next
    chunk of its body, or the click handler of the New Chat button, which
    the component never disables. Each runs to completion on the state of
    the component; the locals of the dispatch are its own. *)
Inductive Task :=
| ChunkRead (value : Chunk)
| NewChatClicked (rnd : jsstring).

Definition run_task (acc : Locals * State) (t : Task) : Locals * State :=
  match t with
  | ChunkRead value => read_step acc.1 acc.2 value
  | NewChatClicked rnd => (acc.1, handleNewChat rnd acc.2)
  end.

(** A streaming dispatch sent from [s] whose body is read to its end
    while the tasks [ts] run, in this order: from the first
    [reader.read()] to the [finally]. *)
Definition dispatch_among (ts : list Task) (s : State) : State :=
  stream_finish EndOfStream
    (foldl run_task
       ({| decoder := TextDecoder_new; buffer := []; fullResponse := [] |},
        stream_start s) ts).2.

End WithPlatform.

End EventLoop.

Module MoreSamples.
Import ChatInterface Sample.

(** A reply with the given HTTP status and an empty error body. *)
Definition http_error (status : N) : Network :=
  {| axios_reply := AxiosRejected {| message := None |};
     fetch_reply := FetchResponse false status (inr []) None |}.

(** A body that breaks off after its first fragment. *)
Definition broken_off : Network :=
  {| axios_reply := AxiosRejected {| message := None |};
     fetch_reply :=
       FetchResponse true 200 (inr [])
         (Some {| chunks := [data_line "{'type':'content','content':'Hel'}"];
                  ending := ReadRejected (Error (js "network error")) |}) |}.

(** The same reply as [hello_world], cut into chunks elsewhere. *)
Definition hello_world_recut : list jsstring :=
  [js "da"; js "ta: " ++ json "{'type':'content','content':'Hello'}" ++ lf;
   lf ++ data_line "{'type':'content','content':' world'}"
      ++ data_line "{'type':'done','quotation_id':'quot-1'}"].

Definition photo : File :=
  {| file_name := js "site.png"; file_type := js "image/png"; file_data := [137; 80]%N |}.

Definition plan : File :=
  {| file_name := js "plan.pdf"; file_type := js "application/pdf"; file_data := [37; 80]%N |}.

(** A reply during which New Chat is pressed: a fragment arrives, the
    user starts a new chat, then the [done] event of the old reply
    arrives with the quotation the old conversation created. *)
Definition new_chat_midway : list EventLoop.Task :=
  [EventLoop.ChunkRead (data_line "{'type':'content','content':'Hel'}");
   EventLoop.NewChatClicked (js "n7w2");
   EventLoop.ChunkRead (data_line "{'type':'done','quotation_id':'quot-1'}")].

(** A response that is not [ok] and whose body cannot be read. *)
Definition http_error_unreadable (status : N) : Network :=
  {| axios_reply := AxiosRejected {| message := None |};
     fetch_reply := FetchResponse false status
                      (inl (Error (js "network error"))) None |}.

(** Two files selected into the tray of a fresh session. *)
Definition two_attached : State :=
  Attachments.handleFileSelect
    [(photo, js "blob:1"); (plan, js "blob:2")]
    (useEffect_init (js "k3x9") (mount ∅)).

End MoreSamples.

(* ===================================================================== *)
(** * Part II: properties                                                 *)
(* ===================================================================== *)

(** ** Strings *)

Section StringFacts.

Lemma split_nl_nonempty s : split_nl s ≠ [].
Proof.
  destruct s as [|c s]; simpl; [done|].
  destruct (c =? 10)%N; [done|].
  by destruct (split_nl s).
Qed.

Lemma removelast_cons_ne {A} (x : A) l : l ≠ [] → removelast (x :: l) = x :: removelast l.
Proof. by destruct l. Qed.

Lemma last_cons_ne {A} (x : A) l : l ≠ [] → last (x :: l) = last l.
Proof. by destruct l. Qed.

(** Splitting a text that arrives in two parts: the lines completed by
    the first part, then the split of the unfinished piece followed by
    the second part. *)
Lemma split_nl_app a b :
  split_nl (a ++ b) =
  removelast (split_nl a) ++ split_nl (default [] (last (split_nl a)) ++ b).
Proof.
  induction a as [|c a IH]; [done|].
  pose proof (split_nl_nonempty a) as Hne.
  simpl. destruct (c =? 10)%N eqn:Ec.
  - rewrite removelast_cons_ne, last_cons_ne by done.
    by rewrite IH.
  - rewrite IH. destruct (split_nl a) as [|l [|l2 ls]]; [done| |].
    + simpl. by rewrite Ec.
    + by rewrite removelast_cons_ne, last_cons_ne by done.
Qed.

Lemma removelast_split_nl_app a b :
  removelast (split_nl (a ++ b)) =
  removelast (split_nl a)
    ++ removelast (split_nl (default [] (last (split_nl a)) ++ b)).
Proof.
  rewrite split_nl_app, removelast_app; [done|apply split_nl_nonempty].
Qed.

Lemma last_split_nl_app a b :
  last (split_nl (a ++ b)) =
  last (split_nl (default [] (last (split_nl a)) ++ b)).
Proof.
  rewrite split_nl_app, last_app.
  destruct (last (split_nl (default [] (last (split_nl a)) ++ b))) eqn:E; [done|].
  apply last_None in E. by apply split_nl_nonempty in E.
Qed.

(** The unfinished piece of a split holds no line feed. *)
Lemma split_nl_last s p : last (split_nl s) = Some p → split_nl p = [p].
Proof.
  revert p. induction s as [|c s IH]; intros p; simpl.
  { by intros [= <-]. }
  pose proof (split_nl_nonempty s) as Hne.
  destruct (c =? 10)%N eqn:Ec.
  - rewrite last_cons_ne by done. apply IH.
  - destruct (split_nl s) as [|l [|l2 ls]]; [done| |].
    + intros [= <-]. simpl. rewrite Ec. by rewrite (IH l).
    + rewrite last_cons_ne by done. apply IH.
Qed.

Lemma trimStart_nil_iff s : trimStart s = [] ↔ forallb is_white_space s = true.
Proof.
  induction s as [|c s IH]; simpl; [done|].
  destruct (is_white_space c); simpl; [done|].
  split; done.
Qed.

Lemma trimStart_head s c t : trimStart s = c :: t → is_white_space c = false.
Proof.
  induction s as [|d s IH]; simpl; [done|].
  destruct (is_white_space d) eqn:E; [done|].
  by intros [= -> _].
Qed.

Lemma forallb_reverse {A} (p : A → bool) l : forallb p (reverse l) = forallb p l.
Proof.
  induction l as [|x l IH]; [done|].
  rewrite reverse_cons, forallb_app, IH. simpl.
  rewrite andb_true_r. apply andb_comm.
Qed.

(** [trim] leaves nothing exactly of the strings made of white space. *)
Lemma trim_nil_iff s : trim s = [] ↔ forallb is_white_space s = true.
Proof.
  unfold trim, trimEnd. split.
  - intros Ht. apply (f_equal reverse) in Ht.
    rewrite reverse_involutive in Ht. change (reverse []) with (@nil N) in Ht.
    apply trimStart_nil_iff in Ht. rewrite forallb_reverse in Ht.
    destruct (trimStart s) as [|c t] eqn:E; [by apply trimStart_nil_iff|].
    apply trimStart_head in E. simpl in Ht. by rewrite E in Ht.
  - intros Hs. apply trimStart_nil_iff in Hs. by rewrite Hs.
Qed.

End StringFacts.

(** ** Binary64 arithmetic *)

Section FloatFacts.

Lemma digits2_pos_size p : digits2_pos p = Pos.size p.
Proof. induction p; simpl; congruence. Qed.

(** The number of binary digits of a positive integer. *)
Lemma Zdigits2_bounds z k :
  0 < k → 2 ^ (k - 1) ≤ z < 2 ^ k → Zdigits2 z = k.
Proof.
  intros Hk [Hlo Hhi].
  assert (0 < z) as Hz by (pose proof (Z.pow_pos_nonneg 2 (k - 1)); lia).
  destruct z as [|p|p]; try lia. cbn [Zdigits2]. rewrite digits2_pos_size.
  pose proof (Pos.size_gt p) as Hgt. pose proof (Pos.size_le p) as Hle.
  apply Pos2Z.pos_lt_pos in Hgt. apply Pos2Z.pos_le_pos in Hle.
  rewrite Pos2Z.inj_pow in Hgt, Hle. rewrite (Pos2Z.inj_xO p) in Hle.
  assert (0 < Z.pos (Pos.size p)) as Hd by lia.
  generalize dependent (Z.pos (Pos.size p)). intros d Hgt Hle Hd.
  destruct (Z.lt_trichotomy d k) as [Hlt|[Heq|Hlt]]; [|done|].
  - pose proof (Z.pow_le_mono_r 2 d (k - 1)). lia.
  - pose proof (Z.pow_le_mono_r 2 k (d - 1)).
    replace d with (Z.succ (d - 1)) in Hle by lia.
    rewrite Z.pow_succ_r in Hle by lia. lia.
Qed.

Lemma iter_pos_iter {A} (f : A → A) p x : SpecFloat.iter_pos f p x = Pos.iter f x p.
Proof.
  revert x. induction p as [p IH|p IH|]; intros x; cbn [SpecFloat.iter_pos Pos.iter].
  - rewrite !IH. by rewrite <- !Pos.iter_swap.
  - by rewrite !IH.
  - done.
Qed.

Lemma shr_1_nonneg m r s :
  0 ≤ m →
  shr_1 {| shr_m := m; shr_r := r; shr_s := s |}
  = {| shr_m := m / 2; shr_r := Z.odd m; shr_s := r || s |}.
Proof.
  intros Hm. rewrite <- Z.div2_div.
  destruct m as [|[p|p|]|p]; done.
Qed.

(** Shifting right [S n] times: the quotient, the last bit shifted out,
    and whether any bit before it was set. *)
Lemma shr_iter_nonneg (n : nat) m :
  0 ≤ m →
  Nat.iter (S n) shr_1 {| shr_m := m; shr_r := false; shr_s := false |}
  = {| shr_m := m / 2 ^ Z.of_nat (S n);
       shr_r := Z.odd (m / 2 ^ Z.of_nat n);
       shr_s := negb (m mod 2 ^ Z.of_nat n =? 0) |}.
Proof.
  intros Hm. induction n as [|n IH].
  { cbn [Nat.iter nat_rect]. rewrite shr_1_nonneg by done.
    change (2 ^ Z.of_nat 0) with 1. change (2 ^ Z.of_nat 1) with 2.
    by rewrite Z.div_1_r, Z.mod_1_r. }
  change (Nat.iter (S (S n)) shr_1 ?x) with (shr_1 (Nat.iter (S n) shr_1 x)).
  rewrite IH, shr_1_nonneg by (apply Z.div_pos; lia).
  assert (2 ^ Z.of_nat (S n) = 2 ^ Z.of_nat n * 2) as Hp.
  { rewrite Nat2Z.inj_succ, Z.pow_succ_r by lia. lia. }
  assert (0 < 2 ^ Z.of_nat n) as Hpos by (apply Z.pow_pos_nonneg; lia).
  f_equal.
  - rewrite (Nat2Z.inj_succ (S n)), Z.pow_succ_r by lia.
    rewrite Z.mul_comm, Z.div_div by lia. done.
  - rewrite Hp. rewrite Z.rem_mul_r by lia.
    pose proof (Z.mod_pos_bound m (2 ^ Z.of_nat n) Hpos).
    pose proof (Z.mod_pos_bound (m / 2 ^ Z.of_nat n) 2 ltac:(lia)).
    rewrite Zodd_mod.
    destruct (Z.eqb_spec (m mod 2 ^ Z.of_nat n) 0) as [E0|E0];
    destruct (Z.eqb_spec ((m / 2 ^ Z.of_nat n) mod 2) 1) as [E1|E1]; 
    match goal with |- _ = negb (?a =? 0) => destruct (Z.eqb_spec a 0) end; simpl; try done; nia.
Qed.

(** Rounding to nearest after a right shift by [s] ≥ 1 bits: the result
    is the quotient or its successor, within half a unit of the exact
    value. *)
Lemma round_shift s m :
  0 ≤ m →
  let mrs := SpecFloat.iter_pos shr_1 s
               {| shr_m := m; shr_r := false; shr_s := false |} in
  let m1 := round_nearest_even (shr_m mrs) (loc_of_shr_record mrs) in
  (m1 = m / 2 ^ Z.pos s ∨ m1 = m / 2 ^ Z.pos s + 1)
  ∧ 2 * Z.abs (m1 * 2 ^ Z.pos s - m) ≤ 2 ^ Z.pos s.
Proof.
  intros Hm mrs m1. subst m1 mrs. rewrite iter_pos_iter, Pos2Nat.inj_iter.
  destruct (Pos2Nat.is_succ s) as [n Hn]. rewrite Hn.
  pose proof (shr_iter_nonneg n m Hm) as Hs. unfold Nat.iter in Hs.
  rewrite Hs. clear Hs. rewrite <- (positive_nat_Z s), Hn.
  set (h := 2 ^ Z.of_nat n).
  assert (2 ^ Z.of_nat (S n) = h * 2) as HT.
  { rewrite Nat2Z.inj_succ, Z.pow_succ_r by lia. lia. }
  assert (0 < h) as Hh by (apply Z.pow_pos_nonneg; lia).
  rewrite HT.
  pose proof (Z.div_mod m (h * 2) ltac:(lia)) as Hdm.
  rewrite Z.rem_mul_r in Hdm by lia.
  pose proof (Z.mod_pos_bound m h Hh) as Ha.
  pose proof (Z.mod_pos_bound (m / h) 2 ltac:(lia)) as Hb.
  rewrite Zodd_mod. cbn [shr_m loc_of_shr_record].
  set (q := m / (h * 2)) in *. set (b := (m / h) mod 2) in *.
  set (a := m mod h) in *. clearbody q b a.
  destruct (Z.eqb_spec b 1) as [Eb|Eb]; destruct (Z.eqb_spec a 0) as [Ea|Ea];
    cbn [negb loc_of_shr_record round_nearest_even]; try destruct (Z.even q); lia.
Qed.

(** Rounding a positive integer mantissa that is [s] ≥ 1 bits too long
    to binary64: the result is a normal number within half a unit in the
    last place of the exact value. *)
Lemma binary_round_aux_shift P e s :
  2 ^ (52 + Z.pos s) ≤ P < 2 ^ (53 + Z.pos s) →
  -1074 ≤ e + Z.pos s → e + Z.pos s < 971 →
  ∃ m ex,
    binary_round_aux 53 1024 false P e loc_Exact = S754_finite false m ex
    ∧ 2 ^ 52 ≤ Z.pos m < 2 ^ 53
    ∧ e + Z.pos s ≤ ex
    ∧ 2 * Z.abs (Z.pos m * 2 ^ (ex - e) - P) ≤ 2 ^ Z.pos s.
Proof.
  intros HP Hlo Hhi.
  assert (0 < 2 ^ Z.pos s) as HT by (apply Z.pow_pos_nonneg; lia).
  assert (2 ^ (52 + Z.pos s) = 2 ^ 52 * 2 ^ Z.pos s) as E52
    by (rewrite Z.pow_add_r; lia).
  assert (2 ^ (53 + Z.pos s) = 2 ^ 53 * 2 ^ Z.pos s) as E53
    by (rewrite Z.pow_add_r; lia).
  assert (0 ≤ P) as HP0 by lia.
  unfold binary_round_aux, shr_fexp.
  rewrite (Zdigits2_bounds P (53 + Z.pos s)) by (replace (53 + Z.pos s - 1) with (52 + Z.pos s); lia).
  replace (fexp 53 1024 (53 + Z.pos s + e) - e) with (Z.pos s)
    by (unfold fexp, emin; lia).
  cbn [shr shr_record_of_loc].
  destruct (round_shift s P HP0) as [Hq Herr].
  set (m1 := round_nearest_even _ _) in *. clearbody m1.
  assert (2 ^ 52 ≤ P / 2 ^ Z.pos s < 2 ^ 53) as Hqb.
  { split; [apply Z.div_le_lower_bound|apply Z.div_lt_upper_bound]; lia. }
  assert (2 ^ 52 ≤ m1 ≤ 2 ^ 53) as Hm1 by lia.
  destruct (Z.eq_dec m1 (2 ^ 53)) as [Heq|Hne].
  - subst m1. change (2 ^ 53) with 9007199254740992 in *.
    rewrite (Zdigits2_bounds 9007199254740992 54) by (change (2 ^ 53) with 9007199254740992; change (2 ^ 54) with 18014398509481984; lia).
    replace (fexp 53 1024 (54 + (e + Z.pos s)) - (e + Z.pos s)) with 1
      by (unfold fexp, emin; lia).
    cbn. rewrite (proj2 (Z.leb_le _ _)) by lia.
    eexists _, _. split; [reflexivity|].
    replace (e + Z.pos s + 1 - e) with (Z.succ (Z.pos s)) by lia.
    rewrite Z.pow_succ_r by lia. change (2 ^ 52) with 4503599627370496 in *. lia.
  - rewrite (Zdigits2_bounds m1 53) by (change (53 - 1) with 52; lia).
    replace (fexp 53 1024 (53 + (e + Z.pos s)) - (e + Z.pos s)) with 0
      by (unfold fexp, emin; lia).
    cbn [shr shr_record_of_loc shr_m fst snd].
    destruct m1 as [|m|m]; try (pose proof (Z.pow_pos_nonneg 2 52); lia).
    rewrite (proj2 (Z.leb_le _ _)) by lia.
    eexists _, _. split; [reflexivity|].
    replace (e + Z.pos s - e) with (Z.pos s) by lia. lia.
Qed.

Lemma binary_round_aux_exact m e :
  2 ^ 52 ≤ Z.pos m < 2 ^ 53 → -1074 ≤ e ≤ 971 →
  binary_round_aux 53 1024 false (Z.pos m) e loc_Exact = S754_finite false m e.
Proof.
  intros Hm He. unfold binary_round_aux, shr_fexp.
  rewrite (Zdigits2_bounds (Z.pos m) 53) by (change (53 - 1) with 52; lia).
  replace (fexp 53 1024 (53 + e) - e) with 0 by (unfold fexp, emin; lia).
  cbn [shr shr_record_of_loc shr_m loc_of_shr_record round_nearest_even].
  rewrite (Zdigits2_bounds (Z.pos m) 53) by (change (53 - 1) with 52; lia).
  replace (fexp 53 1024 (53 + e) - e) with 0 by (unfold fexp, emin; lia).
  cbn [shr shr_record_of_loc shr_m].
  by rewrite (proj2 (Z.leb_le _ _)) by lia.
Qed.

Lemma iter_xO_value p k : Z.pos (Pos.iter xO p k) = Z.pos p * 2 ^ Z.pos k.
Proof.
  induction k as [|k IH] using Pos.peano_ind.
  { cbn [Pos.iter]. lia. }
  rewrite Pos.iter_succ, Pos2Z.inj_xO, IH, Pos2Z.inj_succ, Z.pow_succ_r by lia.
  lia.
Qed.

(** The binary64 number of a positive integer with [d] ≤ 53 bits: the
    integer itself, normalised. *)
Lemma binary_normalize_pos p d :
  0 < d ≤ 53 → 2 ^ (d - 1) ≤ Z.pos p < 2 ^ d →
  ∃ m, binary_normalize 53 1024 (Z.pos p) 0 false = S754_finite false m (d - 53)
       ∧ Z.pos m = Z.pos p * 2 ^ (53 - d).
Proof.
  intros Hd Hp. cbn [binary_normalize]. unfold binary_round.
  pose proof (Zdigits2_bounds (Z.pos p) d ltac:(lia) Hp) as Hdig.
  cbn [Zdigits2] in Hdig. rewrite Hdig.
  replace (fexp 53 1024 (d + 0)) with (d - 53) by (unfold fexp, emin; lia).
  unfold shl_align.
  assert (2 ^ 53 = 2 ^ (d - 1) * 2 ^ (53 - d) * 2) as E53.
  { rewrite <- Z.pow_add_r, Z.mul_comm, <- Z.pow_succ_r by lia. f_equal. lia. }
  assert (2 ^ 53 = 2 ^ d * 2 ^ (53 - d)) as E53'.
  { rewrite <- Z.pow_add_r by lia. f_equal. lia. }
  assert (0 < 2 ^ (53 - d)) as Hpos by (apply Z.pow_pos_nonneg; lia).
  change (2 ^ 53) with 9007199254740992 in *.
  destruct (d - 53 - 0) as [|k|k] eqn:Ek; try lia.
  - replace (53 - d) with 0 in * by lia. replace d with 53 in * by lia.
    exists p. rewrite binary_round_aux_exact;
      [split; [done|lia]| |lia].
    change (2 ^ 52) with (2 ^ (53 - 1)). change (2 ^ 53) with 9007199254740992. lia.
  - exists (Pos.iter xO p k).
    assert (Z.pos (Pos.iter xO p k) = Z.pos p * 2 ^ (53 - d)) as Hv.
    { rewrite iter_xO_value. f_equal. f_equal. lia. }
    split; [|done].
    apply binary_round_aux_exact; [|lia].
    rewrite Hv. change (2 ^ 52) with 4503599627370496.
    change (2 ^ 53) with 9007199254740992. nia.
Qed.

(** Comparing two positive normal numbers is comparing their values. *)
Lemma SFltb_normal m1 e1 m2 e2 e0 :
  2 ^ 52 ≤ Z.pos m1 < 2 ^ 53 → 2 ^ 52 ≤ Z.pos m2 < 2 ^ 53 →
  e0 ≤ e1 → e0 ≤ e2 →
  SFltb (S754_finite false m1 e1) (S754_finite false m2 e2)
  = (Z.pos m1 * 2 ^ (e1 - e0) <? Z.pos m2 * 2 ^ (e2 - e0)).
Proof.
  intros H1 H2 He1 He2. unfold SFltb, SFcompare.
  change (2 ^ 52) with 4503599627370496 in *.
  change (2 ^ 53) with 9007199254740992 in *.
  destruct (Z.compare_spec e1 e2) as [->|Hlt|Hlt].
  - assert (0 < 2 ^ (e2 - e0)) as Hk by (apply Z.pow_pos_nonneg; lia).
    change (Pos.compare_cont Eq m1 m2) with (Pos.compare m1 m2).
    rewrite Pos2Z.inj_compare.
    destruct (Z.compare_spec (Z.pos m1) (Z.pos m2)) as [Heq|Hc|Hc]; symmetry.
    + rewrite Heq. apply Z.ltb_irrefl.
    + apply Z.ltb_lt. nia.
    + apply Z.ltb_ge. nia.
  - assert (0 < 2 ^ (e1 - e0)) as Hk by (apply Z.pow_pos_nonneg; lia).
    assert (2 ^ (e2 - e0) = 2 ^ (e1 - e0) * 2 ^ (e2 - e1 - 1) * 2) as ->.
    { rewrite <- Z.pow_add_r, Z.mul_comm, <- Z.pow_succ_r by lia. f_equal. lia. }
    assert (0 < 2 ^ (e2 - e1 - 1)) as Hl by (apply Z.pow_pos_nonneg; lia).
    set (K := 2 ^ (e1 - e0)) in *. set (L := 2 ^ (e2 - e1 - 1)) in *.
    assert (Z.pos m1 * K < 9007199254740992 * K)
      by (apply Z.mul_lt_mono_pos_r; lia).
    assert (9007199254740992 * K ≤ Z.pos m2 * 2 * K)
      by (apply Z.mul_le_mono_nonneg_r; lia).
    assert (Z.pos m2 * 2 * K * 1 ≤ Z.pos m2 * 2 * K * L)
      by (apply Z.mul_le_mono_nonneg_l; lia).
    symmetry. apply Z.ltb_lt. lia.
  - assert (0 < 2 ^ (e2 - e0)) as Hk by (apply Z.pow_pos_nonneg; lia).
    assert (2 ^ (e1 - e0) = 2 ^ (e2 - e0) * 2 ^ (e1 - e2 - 1) * 2) as ->.
    { rewrite <- Z.pow_add_r, Z.mul_comm, <- Z.pow_succ_r by lia. f_equal. lia. }
    assert (0 < 2 ^ (e1 - e2 - 1)) as Hl by (apply Z.pow_pos_nonneg; lia).
    set (K := 2 ^ (e2 - e0)) in *. set (L := 2 ^ (e1 - e2 - 1)) in *.
    assert (Z.pos m2 * K < 9007199254740992 * K)
      by (apply Z.mul_lt_mono_pos_r; lia).
    assert (9007199254740992 * K ≤ Z.pos m1 * 2 * K)
      by (apply Z.mul_le_mono_nonneg_r; lia).
    assert (Z.pos m1 * 2 * K * 1 ≤ Z.pos m1 * 2 * K * L)
      by (apply Z.mul_le_mono_nonneg_l; lia).
    symmetry. apply Z.ltb_ge. lia.
Qed.

Lemma of_nat_pos (n : nat) :
  0 < Z.of_nat n < 2 ^ 53 →
  ∃ m d, of_nat n = S754_finite false m (d - 53)
         ∧ 0 < d ≤ 53
         ∧ 2 ^ (d - 1) ≤ Z.of_nat n < 2 ^ d
         ∧ Z.pos m = Z.of_nat n * 2 ^ (53 - d)
         ∧ 2 ^ 52 ≤ Z.pos m < 2 ^ 53.
Proof.
  intros [Hn Hn53]. unfold of_nat, prec, emax.
  destruct (Z.of_nat n) as [|p|p] eqn:Ep; try lia.
  pose proof (Z.log2_spec (Z.pos p) Hn) as Hl.
  pose proof (Z.log2_nonneg (Z.pos p)) as Hl0.
  pose proof (proj1 (Z.log2_lt_pow2 (Z.pos p) 53 Hn) Hn53) as Hl53.
  set (d := Z.log2 (Z.pos p) + 1).
  replace (Z.succ (Z.log2 (Z.pos p))) with d in Hl by lia.
  replace (Z.log2 (Z.pos p)) with (d - 1) in Hl by lia.
  destruct (binary_normalize_pos p d ltac:(lia) Hl) as (m & Hm & Hv).
  exists m, d. repeat split; try lia; try done.
  - rewrite Hv.
    assert (2 ^ 52 = 2 ^ (d - 1) * 2 ^ (53 - d)) as ->.
    { rewrite <- Z.pow_add_r by lia. f_equal. lia. }
    apply Z.mul_le_mono_nonneg_r; [apply Z.pow_nonneg|]; lia.
  - rewrite Hv.
    assert (2 ^ 53 = 2 ^ d * 2 ^ (53 - d)) as ->.
    { rewrite <- Z.pow_add_r by lia. f_equal. lia. }
    apply Z.mul_lt_mono_pos_r; [apply Z.pow_pos_nonneg|]; lia.
Qed.

(** The literal is the binary64 number nearest to three tenths: it is
    within half a unit in the last place, 2^-55, of 3/10. *)
Lemma lit_0_3_nearest :
  lit_0_3 = S754_finite false 5404319552844595 (-54)
  ∧ 2 ^ 52 ≤ 5404319552844595 < 2 ^ 53
  ∧ Z.abs (10 * 5404319552844595 - 3 * 2 ^ 54) ≤ 5.
Proof. repeat split; by vm_compute. Qed.

(** The product [n * 0.3]: a normal number within half a unit in the
    last place of [W * C * 2^(d - 107)], where [W] is the mantissa of [n],
    [d] its number of bits and [C * 2^-54] the literal. *)
Lemma mul_0_3_spec (n : nat) m0 d :
  of_nat n = S754_finite false m0 (d - 53) →
  0 < d ≤ 53 → 2 ^ 52 ≤ Z.pos m0 < 2 ^ 53 →
  ∃ m ex s,
    mul (of_nat n) lit_0_3 = S754_finite false m ex
    ∧ 2 ^ 52 ≤ Z.pos m < 2 ^ 53
    ∧ (s = 52 ∨ s = 53)
    ∧ d - 107 + s ≤ ex
    ∧ 2 ^ 52 * 2 ^ s ≤ Z.pos m0 * 5404319552844595 < 2 ^ 53 * 2 ^ s
    ∧ 2 * Z.abs (Z.pos m * 2 ^ (ex - (d - 107)) - Z.pos m0 * 5404319552844595)
      ≤ 2 ^ s.
Proof.
  intros Hn Hd Hm0. unfold mul, lit_0_3. rewrite Hn. cbn [SFmul xorb].
  unfold prec, emax. rewrite Pos2Z.inj_mul.
  replace (d - 53 + -54) with (d - 107) by lia.
  set (P := Z.pos m0 * 5404319552844595).
  change (2 ^ 52) with 4503599627370496 in *.
  change (2 ^ 53) with 9007199254740992 in *.
  destruct (Z.lt_ge_cases P (2 ^ 105)) as [HP|HP].
  - destruct (binary_round_aux_shift P (d - 107) 52) as (m & ex & Hr & Hm & He & Hb).
    { change (2 ^ (52 + 52)) with 20282409603651670423947251286016.
      change (2 ^ (53 + 52)) with (2 ^ 105). subst P. lia. }
    { lia. } { lia. }
    exists m, ex, 52. rewrite Hr.
    change (2 ^ 52) with 4503599627370496 in *.
    change (2 ^ 53) with 9007199254740992 in *.
    change (2 ^ 105) with 40564819207303340847894502572032 in *.
    repeat split; lia.
  - destruct (binary_round_aux_shift P (d - 107) 53) as (m & ex & Hr & Hm & He & Hb).
    { change (2 ^ (52 + 53)) with (2 ^ 105).
      change (2 ^ (53 + 53)) with 81129638414606681695789005144064. subst P. lia. }
    { lia. } { lia. }
    exists m, ex, 53. rewrite Hr.
    change (2 ^ 52) with 4503599627370496 in *.
    change (2 ^ 53) with 9007199254740992 in *.
    change (2 ^ 105) with 40564819207303340847894502572032 in *.
    repeat split; lia.
Qed.

(** [count > n * 0.3], computed in binary64, decides [3 * n < 10 * count]
    exactly for every length below 2^51. *)
Lemma gt_mul_0_3 (count n : nat) :
  (count ≤ n)%nat → Z.of_nat n < 2 ^ 51 →
  gt (of_nat count) (mul (of_nat n) lit_0_3)
  = (3 * Z.of_nat n <? 10 * Z.of_nat count).
Proof.
  intros Hc Hn.
  destruct (Z.eq_dec (Z.of_nat n) 0) as [Hn0|Hn0].
  { replace n with 0%nat by lia. replace count with 0%nat by lia. reflexivity. }
  change (2 ^ 51) with 2251799813685248 in Hn.
  destruct (of_nat_pos n) as (m0 & d & Hof & Hd & Hdn & Hm0 & Hm0b).
  { change (2 ^ 53) with 9007199254740992. lia. }
  assert (d ≤ 51) as Hd51.
  { destruct (Z.le_gt_cases d 51) as [|Hgt]; [done|].
    pose proof (Z.pow_le_mono_r 2 51 (d - 1) ltac:(lia) ltac:(lia)) as Hp.
    change (2 ^ 51) with 2251799813685248 in Hp. lia. }
  destruct (mul_0_3_spec n m0 d Hof Hd Hm0b)
    as (m & ex & s & Hmul & Hm & Hs & Hex & HP & Herr).
  unfold gt. rewrite Hmul.
  destruct (Z.eq_dec (Z.of_nat count) 0) as [Hc0|Hc0].
  { replace count with 0%nat by lia. cbn.
    symmetry. apply Z.ltb_ge. lia. }
  destruct (of_nat_pos count) as (mc & dc & Hofc & Hdc & Hdcn & Hmc & Hmcb).
  { change (2 ^ 53) with 9007199254740992. lia. }
  rewrite Hofc, (SFltb_normal m ex mc (dc - 53) (d - 107)) by (done || lia).
  (* the common scale: u = 2^(53 - d) *)
  set (u := 2 ^ (53 - d)) in *.
  assert (4 ≤ u) as Hu.
  { change 4 with (2 ^ 2). apply Z.pow_le_mono_r; lia. }
  assert (Z.pos mc * 2 ^ (dc - 53 - (d - 107))
          = Z.of_nat count * u * 18014398509481984) as ->.
  { rewrite Hmc, <- !Z.mul_assoc. f_equal.
    change 18014398509481984 with (2 ^ 54). subst u.
    rewrite <- !Z.pow_add_r by lia. f_equal. lia. }
  assert (∃ a, Z.pos m * 2 ^ (ex - (d - 107)) = a * 2 ^ s) as [a Ha].
  { exists (Z.pos m * 2 ^ (ex - (d - 107) - s)).
    rewrite <- Z.mul_assoc, <- Z.pow_add_r by lia. do 2 f_equal. lia. }
  rewrite Ha in *. rewrite Hm0 in *.
  set (W := Z.of_nat n * u) in *. set (Y := Z.of_nat count * u).
  assert (3 * Z.of_nat n < 10 * Z.of_nat count → 3 * W + u ≤ 10 * Y) as HA
    by (subst W Y; nia).
  assert (10 * Z.of_nat count < 3 * Z.of_nat n → 10 * Y + u ≤ 3 * W) as HB
    by (subst W Y; nia).
  assert (3 * Z.of_nat n = 10 * Z.of_nat count → 3 * W = 10 * Y) as HC
    by (subst W Y; nia).
  clearbody W Y u.
  change (2 ^ 52) with 4503599627370496 in *.
  change (2 ^ 53) with 9007199254740992 in *.
  destruct Hs as [-> | ->].
  - change (2 ^ 52) with 4503599627370496 in *.
    destruct (Z.ltb_spec (3 * Z.of_nat n) (10 * Z.of_nat count));
      destruct (Z.ltb_spec (a * 4503599627370496) (Y * 18014398509481984));
      try done; lia.
  - change (2 ^ 53) with 9007199254740992 in *.
    destruct (Z.ltb_spec (3 * Z.of_nat n) (10 * Z.of_nat count));
      destruct (Z.ltb_spec (a * 9007199254740992) (Y * 18014398509481984));
      try done; lia.
Qed.

End FloatFacts.

(** ** Language detection *)

Section LanguageFacts.
Import Language.

Lemma match_count_le p text : (match_count p text ≤ length text)%nat.
Proof. apply length_filter. Qed.

Lemma hasArabic_iff text :
  existsb arabicPattern text = true ↔ ∃ c, c ∈ text ∧ arabicPattern c = true.
Proof.
  rewrite existsb_exists. split; intros (c & Hc & Hp); exists c;
    (split; [by apply list_elem_of_In|done]).
Qed.

(** C8: for a text shorter than 2^51 code units, [detectLanguage]
    answers [ar] exactly when the text holds a code unit of
    U+0600..U+06FF and the number of such code units exceeds three
    tenths of the length (that is, 3 * length < 10 * count), and [en]
    otherwise; [isRTL] holds exactly when the answer is [ar]; a text
    whose share of such code units is at most 30% is [en]. *)
Theorem detectLanguage_spec text :
  Z.of_nat (length text) < 2 ^ 51 →
  let arabicCount := Z.of_nat (match_count arabicPattern text) in
  (detectLanguage text = ar ↔
     (∃ c, c ∈ text ∧ arabicPattern c = true)
     ∧ 3 * Z.of_nat (length text) < 10 * arabicCount)
  ∧ (detectLanguage text = en ↔
     ¬ ((∃ c, c ∈ text ∧ arabicPattern c = true)
        ∧ 3 * Z.of_nat (length text) < 10 * arabicCount))
  ∧ (isRTL text = true ↔ detectLanguage text = ar)
  ∧ (10 * arabicCount ≤ 3 * Z.of_nat (length text) → detectLanguage text = en).
Proof.
  intros Hlen arabicCount. subst arabicCount.
  assert (detectLanguage text = ar ↔
            (∃ c, c ∈ text ∧ arabicPattern c = true)
            ∧ 3 * Z.of_nat (length text)
              < 10 * Z.of_nat (match_count arabicPattern text)) as Har.
  { unfold detectLanguage.
    rewrite (gt_mul_0_3 _ _ (match_count_le arabicPattern text) Hlen).
    rewrite <- hasArabic_iff, <- Z.ltb_lt.
    destruct (existsb arabicPattern text); destruct (_ <? _); cbn;
      intuition congruence. }
  split; [exact Har|]. split; [|split].
  - rewrite <- Har. destruct (detectLanguage text); intuition congruence.
  - unfold isRTL. apply bool_decide_eq_true.
  - intros Hle. destruct (detectLanguage text); [|done].
    destruct (proj1 Har eq_refl) as [_ Hgt]. lia.
Qed.

End LanguageFacts.

Section LanguageSamples.
Import Language.

(** Two Arabic letters and a Latin one. *)
Lemma detectLanguage_spec_witness :
  Z.of_nat (length [1575; 1576; 97]%N) < 2 ^ 51
  ∧ detectLanguage [1575; 1576; 97]%N = ar
  ∧ (detectLanguage [1575; 1576; 97]%N = ar ↔
       (∃ c, c ∈ [1575; 1576; 97]%N ∧ arabicPattern c = true)
       ∧ 3 * Z.of_nat (length [1575; 1576; 97]%N)
         < 10 * Z.of_nat (match_count arabicPattern [1575; 1576; 97]%N)).
Proof.
  split; [reflexivity|]. split; [reflexivity|].
  exact (proj1 (detectLanguage_spec [1575; 1576; 97]%N eq_refl)).
Defined.

End LanguageSamples.

(** ** The streaming read loop *)

Section ReadLoop.
Import ChatInterface Dispatch.
Context `{Platform}.

(** *** The content updater *)

Lemma update_assistant_length idx full prev :
  length (update_assistant idx full prev) = length prev.
Proof.
  unfold update_assistant.
  destruct (_ && _); [|done].
  destruct (prev !! Z.to_nat idx) as [m|]; [|done].
  case_bool_decide; [|done]. by rewrite length_insert.
Qed.

Lemma update_assistant_other idx full prev (j : nat) :
  Z.of_nat j ≠ idx → update_assistant idx full prev !! j = prev !! j.
Proof.
  intros Hj. unfold update_assistant.
  destruct (_ && _) eqn:Hr; [|done].
  destruct (prev !! Z.to_nat idx) as [m|]; [|done].
  case_bool_decide; [|done].
  apply list_lookup_insert_ne. lia.
Qed.

Lemma update_assistant_not_assistant idx full prev m :
  prev !! Z.to_nat idx = Some m → role m ≠ assistant →
  update_assistant idx full prev = prev.
Proof.
  intros Hm Hr. unfold update_assistant.
  destruct (_ && _); [|done]. rewrite Hm.
  by case_bool_decide.
Qed.

Lemma update_assistant_shape idx full prev (j : nat) m :
  prev !! j = Some m →
  ∃ c, update_assistant idx full prev !! j =
       Some {| role := role m; content := c; msg_attachments := msg_attachments m |}.
Proof.
  intros Hm. destruct (decide (Z.of_nat j = idx)) as [<-|Hne].
  - unfold update_assistant. rewrite Nat2Z.id, Hm.
    destruct (_ && _); [|exists (content m); by destruct m].
    case_bool_decide; [|exists (content m); by destruct m].
    exists full. rewrite list_lookup_insert_eq; [done|].
    by eapply lookup_lt_Some.
  - rewrite update_assistant_other by done.
    exists (content m). by destruct m.
Qed.

Lemma update_assistant_placeholder pre c full :
  update_assistant (Z.of_nat (length pre)) full (pre ++ [assistantMsg c])
  = pre ++ [assistantMsg full].
Proof.
  unfold update_assistant. rewrite Nat2Z.id, length_app. simpl.
  assert ((0 <=? Z.of_nat (length pre))
          && (Z.of_nat (length pre) <? Z.of_nat (length pre + 1)) = true) as ->.
  { apply andb_true_iff. split; [apply Z.leb_le|apply Z.ltb_lt]; lia. }
  rewrite list_lookup_middle by done. simpl.
  replace (length pre) with (length pre + 0)%nat at 1 by lia.
  by rewrite insert_app_r.
Qed.

(** *** One line *)

Lemma process_line_messages full s line :
  messages (process_line (full, s) line).2 = messages s ∨
  ∃ full', messages (process_line (full, s) line).2
           = update_assistant (assistantMessageRef s) full' (messages s).
Proof.
  unfold process_line. destruct (startsWith _ _); [|by left].
  unfold sse_try. destruct (JSON_parse _) as [data|]; [|by left].
  repeat case_bool_decide; try by left.
  - right. by eexists.
  - destruct (truthy _); by left.
Qed.

Lemma process_line_ref full s line :
  assistantMessageRef (process_line (full, s) line).2 = assistantMessageRef s.
Proof.
  unfold process_line. destruct (startsWith _ _); [|done].
  unfold sse_try. destruct (JSON_parse _) as [data|]; [|done].
  repeat case_bool_decide; try done.
  by destruct (truthy _).
Qed.

Lemma process_line_tracking pre full s line :
  tracking pre (full, s) →
  tracking pre (process_line (full, s) line)
  ∧ (process_line (full, s) line).1
    = full ++ default [] (event_of_line line ≫= fragment_of).
Proof.
  intros [Hm Hr]. simpl in Hm, Hr.
  unfold process_line, event_of_line, tracking, fragment_of.
  destruct (startsWith _ _); simpl; [|by rewrite app_nil_r].
  unfold sse_try. destruct (JSON_parse _) as [data|]; simpl;
    [|by rewrite app_nil_r].
  case_bool_decide as Hc; simpl.
  { rewrite Hr, Hm, update_assistant_placeholder. done. }
  rewrite app_nil_r.
  case_bool_decide; [by destruct (truthy _)|].
  by case_bool_decide.
Qed.

Lemma foldl_process_line_tracking pre lines acc :
  tracking pre acc →
  tracking pre (foldl process_line acc lines)
  ∧ (foldl process_line acc lines).1
    = acc.1 ++ concat (content_fragments (omap event_of_line lines)).
Proof.
  revert acc. induction lines as [|line lines IH]; intros [full s] Ht;
    cbn [foldl omap list_omap].
  { simpl. by rewrite app_nil_r. }
  destruct (process_line_tracking pre full s line Ht) as [Ht' Hf].
  destruct (process_line (full, s) line) as [full' s'] eqn:E. simpl in Hf.
  destruct (IH (full', s') Ht') as [Ht'' Hf'']. split; [done|].
  rewrite Hf'', Hf. unfold content_fragments.
  destruct (event_of_line line) as [d|]; simpl; [|by rewrite app_nil_r].
  destruct (fragment_of d); simpl; [by rewrite <- app_assoc|by rewrite app_nil_r].
Qed.

(** *** The loop *)

Lemma or_empty_id x : or_empty x = x.
Proof. by destruct x. Qed.

(** The loop hands [process_line] exactly the finished lines of the
    text it was given, in order, whatever the chunk boundaries. *)
Lemma read_loop_lines cs l s :
  split_nl (buffer l) = [buffer l] →
  (fullResponse (read_loop cs l s).1, (read_loop cs l s).2)
  = foldl process_line (fullResponse l, s)
      (removelast (split_nl (buffer l ++ decoded (decoder l) cs))).
Proof.
  revert l s. induction cs as [|value cs IH]; intros l s Hb.
  { cbn [decoded read_loop]. by rewrite app_nil_r, Hb. }
  cbn [decoded read_loop]. unfold read_step, pop.
  destruct (TextDecoder_decode (decoder l) value) as [text dec].
  rewrite or_empty_id.
  destruct (foldl process_line (fullResponse l, s)
              (removelast (split_nl (buffer l ++ text)))) as [full s'] eqn:E.
  rewrite IH; cbn [buffer decoder fullResponse].
  - rewrite app_assoc, (removelast_split_nl_app (buffer l ++ text)).
    by rewrite foldl_app, E.
  - pose proof (split_nl_nonempty (buffer l ++ text)) as Hne.
    destruct (last (split_nl (buffer l ++ text))) as [p|] eqn:El.
    + by apply split_nl_last in El.
    + by apply last_None in El.
Qed.

End ReadLoop.

(** ** sendMessage *)

Section SendMessage.
Import ChatInterface Dispatch.
Context `{Platform}.

Lemma nothing_to_send_iff s :
  nothing_to_send s = true ↔
  forallb is_white_space (input s) = true ∧ attachments s = [].
Proof.
  unfold nothing_to_send. rewrite andb_true_iff, <- trim_nil_iff.
  rewrite Nat.eqb_eq, length_zero_iff_nil.
  unfold truthy. destruct (trim (input s)); simpl; intuition congruence.
Qed.

(** The messages a streaming dispatch leaves behind: the prior ones, the
    user's, the assistant's with the concatenated fragments and, only if
    reading the body failed, an error bubble. *)
Lemma stream_dispatch_messages net s status text body :
  attachments s = [] → nothing_to_send s = false →
  fetch_reply net = FetchResponse true status text (Some body) →
  messages (sendMessage net s).1
  = messages s
    ++ [userMsg s;
        assistantMsg (concat (content_fragments (received_events (chunks body))))]
    ++ match ending body with
       | EndOfStream => []
       | ReadRejected e => [assistantMsg (errorMessage e)]
       end.
Proof.
  intros Ha Hn Hf. unfold sendMessage. rewrite Hn.
  unfold try_send. cbv zeta. rewrite Ha, Hf. cbn [length Nat.ltb Nat.leb negb].
  set (s1 := setMessages _ (set_assistantMessageRef _ _)).
  set (l0 := {| decoder := TextDecoder_new; buffer := []; fullResponse := [] |}).
  pose proof (read_loop_lines (chunks body) l0 s1 eq_refl) as Hl.
  assert (tracking (messages s ++ [userMsg s]) (fullResponse l0, s1)) as Ht.
  { split; [|done]. subst s1. reflexivity. }
  apply (foldl_process_line_tracking _
           (removelast (split_nl (buffer l0 ++ decoded (decoder l0) (chunks body)))))
    in Ht as [[Hm Hr] Hc].
  rewrite <- Hl in Hm, Hc. cbn [fst snd] in Hm, Hc.
  destruct (read_loop (chunks body) l0 s1) as [l' s'].
  cbn [fst snd] in Hm, Hc. rewrite Hc in Hm.
  change (concat (content_fragments (omap event_of_line _)))
    with (concat (content_fragments (received_events (chunks body)))) in Hm.
  destruct (ending body); simpl; rewrite Hm, <- ?app_assoc; simpl; by rewrite ?app_nil_r.
Qed.

Lemma blank_input_iff s :
  trim (input s) = [] ↔ forallb is_white_space (input s) = true.
Proof. apply trim_nil_iff. Qed.

Lemma not_nothing_to_send s :
  trim (input s) ≠ [] → nothing_to_send s = false.
Proof.
  intros Hi. apply not_true_is_false. intros [Hb _]%nothing_to_send_iff.
  by apply trim_nil_iff in Hb.
Qed.

(** C2: in a streaming dispatch the assistant message appended for the
    dispatch (it sits right after the user's message) ends up holding the
    concatenation, in the order received, of the text of every content
    event of the body, whatever the chunk boundaries and however reading
    the body ends. *)
Theorem streamed_content_is_concatenation net s status text body :
  attachments s = [] → trim (input s) ≠ [] →
  fetch_reply net = FetchResponse true status text (Some body) →
  messages (sendMessage net s).1 !! S (length (messages s))
  = Some (assistantMsg
            (concat (content_fragments (received_events (chunks body))))).
Proof.
  intros Ha Hi Hf.
  rewrite (stream_dispatch_messages net s status text body Ha
             (not_nothing_to_send s Hi) Hf).
  rewrite lookup_app_r by lia.
  replace (S (length (messages s)) - length (messages s))%nat with 1%nat by lia.
  done.
Qed.

(** C4: with an attachment the turn goes out as one multipart POST to
    [/api/v1/chat] and the reply is the [response] field of the one
    response object; without attachments it goes to [/api/v1/chat/stream]
    and the reply is assembled from the events of the body. A blank input
    without attachments sends nothing. *)
Theorem sendMessage_mode_split net s :
  (attachments s ≠ [] →
     ∃ form,
       (sendMessage net s).2
       = [AxiosPost (apiUrl ++ js "/api/v1/chat") form (js "multipart/form-data") 120000]
       ∧ fd_message form = input s
       ∧ fd_files form = a_file <$> attachments s
       ∧ ∀ response q, axios_reply net = AxiosOk response q →
           messages (sendMessage net s).1
           = messages s ++ [userMsg s; assistantMsg response]
           ∧ (truthy q = true → quotationId (sendMessage net s).1 = q))
  ∧ (attachments s = [] → trim (input s) ≠ [] →
     ∃ body,
       (sendMessage net s).2
       = [FetchPost (apiUrl ++ js "/api/v1/chat/stream") (js "application/json") body]
       ∧ sb_message body = input s
       ∧ ∀ status text b, fetch_reply net = FetchResponse true status text (Some b) →
           ending b = EndOfStream →
           messages (sendMessage net s).1
           = messages s
             ++ [userMsg s;
                 assistantMsg (concat (content_fragments (received_events (chunks b))))])
  ∧ (attachments s = [] → trim (input s) = [] → (sendMessage net s).2 = []).
Proof.
  split; [|split].
  - intros Ha.
    assert (nothing_to_send s = false) as Hn.
    { apply not_true_is_false. by intros [_ ?]%nothing_to_send_iff. }
    unfold sendMessage. rewrite Hn. unfold try_send. cbv zeta.
    destruct (attachments s) as [|a l] eqn:Ea; [done|].
    cbn [length Nat.ltb Nat.leb].
    eexists. split; [|split; [|split]].
    + destruct (axios_reply net) as [r q|e]; [|reflexivity].
      destruct (truthy q); reflexivity.
    + reflexivity.
    + reflexivity.
    + intros response q ->.
      destruct (truthy q); cbn; by rewrite <- app_assoc.
  - intros Ha Hi. pose proof (not_nothing_to_send s Hi) as Hn.
    eexists. split; [|split].
    + unfold sendMessage. rewrite Hn. unfold try_send. cbv zeta.
      rewrite Ha. cbn [length Nat.ltb Nat.leb].
      destruct (fetch_reply net) as [e|ok status text body]; [reflexivity|].
      destruct ok; cbn [negb]; [|by destruct text].
      destruct body as [b|]; [|reflexivity].
      destruct (read_loop _ _ _). by destruct (ending b).
    + reflexivity.
    + intros status text b Hf He.
      rewrite (stream_dispatch_messages net s status text b Ha Hn Hf), He.
      by rewrite app_nil_r.
  - intros Ha Hi. unfold sendMessage.
    replace (nothing_to_send s) with true; [done|].
    symmetry. apply nothing_to_send_iff. split; [|done]. by apply trim_nil_iff.
Qed.

(** C6: whichever request a call sends, its [history] is the list of
    the prior messages, each reduced to its role and its content; the
    attachments of a message have no place in an entry. *)
Theorem history_is_prior_role_content_pairs net s :
  historyForRequest (messages s) = role_content <$> messages s
  ∧ ∀ r, r ∈ (sendMessage net s).2 →
         request_history r = Some (role_content <$> messages s).
Proof.
  assert (∀ msgs, historyForRequest msgs = role_content <$> msgs) as Hh.
  { intros msgs. unfold historyForRequest.
    induction msgs as [|m msgs IH]; [done|].
    rewrite filter_cons_True by (destruct (role m); [by left|by right]).
    rewrite fmap_cons, IH. unfold role_content at 2, String_.
    by rewrite or_empty_id. }
  split; [apply Hh|].
  intros r. unfold sendMessage. destruct (nothing_to_send s); [by intros ?%elem_of_nil|].
  unfold try_send. cbv zeta. rewrite Hh.
  destruct (0 <? length (attachments s))%nat.
  - destruct (axios_reply net) as [resp q|e]; [destruct (truthy q)|];
      cbn [snd]; intros ->%list_elem_of_singleton; done.
  - destruct (fetch_reply net) as [e|ok status text body];
      [cbn [snd]; intros ->%list_elem_of_singleton; done|].
    destruct ok; cbn [negb];
      [|destruct text; cbn [snd]; intros ->%list_elem_of_singleton; done].
    destruct body as [b|]; [|cbn [snd]; intros ->%list_elem_of_singleton; done].
    destruct (read_loop _ _ _). destruct (ending b);
      cbn [snd]; intros ->%list_elem_of_singleton; done.
Qed.

(** C9: handling one line of the stream leaves the length of the message
    list as it was, leaves every message at an index other than the one
    in [assistantMessageRef] as it was, leaves a message that is not an
    assistant message as it was, and changes at most the content of a
    message. *)
Theorem content_update_touches_only_placeholder full s line (j : nat) :
  let s' := (process_line (full, s) line).2 in
  length (messages s') = length (messages s)
  ∧ (Z.of_nat j ≠ assistantMessageRef s → messages s' !! j = messages s !! j)
  ∧ (∀ m, messages s !! j = Some m → role m ≠ assistant →
          messages s' !! j = Some m)
  ∧ (∀ m, messages s !! j = Some m →
          ∃ c, messages s' !! j
               = Some {| role := role m; content := c;
                         msg_attachments := msg_attachments m |}).
Proof.
  intros s'. subst s'.
  destruct (process_line_messages full s line) as [->|[full' ->]].
  { repeat split; try done. intros m Hm. exists (content m). by destruct m. }
  split; [apply update_assistant_length|].
  split; [apply update_assistant_other|].
  split; [|apply update_assistant_shape].
  intros m Hm Hr.
  destruct (decide (Z.of_nat j = assistantMessageRef s)) as [Hj|Hj].
  - rewrite (update_assistant_not_assistant _ _ _ m); [done| |done].
    by rewrite <- Hj, Nat2Z.id.
  - by rewrite update_assistant_other.
Qed.

(** C10: with an input that is empty or all white space and nothing
    attached, [sendMessage] returns the state it was given and issues no
    request, and the Send button is disabled. *)
Theorem sendMessage_blank_is_noop net s :
  forallb is_white_space (input s) = true → attachments s = [] →
  sendMessage net s = (s, []) ∧ send_disabled s = true.
Proof.
  intros Hb Ha.
  assert (nothing_to_send s = true) as Hn by by apply nothing_to_send_iff.
  unfold sendMessage, send_disabled. rewrite Hn.
  split; [done|apply orb_true_r].
Qed.

End SendMessage.

(** ** Sessions *)

Section Sessions.
Import ChatInterface Dispatch.
Context `{Platform}.

(** The state a session starts in: whatever the browser's local
    storage holds, the session created on page load has a generated
    session id and no quotation id; the New Chat action also resets both
    and removes the stored quotation id; and the first request of a
    freshly loaded session carries no quotation id. *)
Lemma fresh_session_has_no_quotation_link store rnd s net text :
  (sessionId (useEffect_init rnd (mount store)) = Some (generateSessionId rnd)
   ∧ quotationId (useEffect_init rnd (mount store)) = None)
  ∧ (sessionId (handleNewChat rnd s) = Some (generateSessionId rnd)
     ∧ quotationId (handleNewChat rnd s) = None
     ∧ localStorage (handleNewChat rnd s) !! js "quotation_id" = None
     ∧ messages (handleNewChat rnd s) = [greeting])
  ∧ (∀ r, r ∈ (sendMessage net (setInput text (useEffect_init rnd (mount store)))).2 →
          request_quotation_id r = None).
Proof.
  split; [done|]. split.
  { repeat split. cbn.
    rewrite lookup_delete_ne by done. apply lookup_delete_eq. }
  intros r. unfold sendMessage.
  destruct (nothing_to_send _); [by intros ?%elem_of_nil|].
  unfold try_send. cbv zeta. cbn [attachments setInput useEffect_init mount
    setQuotationId localStorage_setItem setSessionId length Nat.ltb Nat.leb].
  destruct (fetch_reply net) as [e|ok status txt body];
    [cbn [snd]; intros ->%list_elem_of_singleton; done|].
  destruct ok; cbn [negb];
    [|destruct txt; cbn [snd]; intros ->%list_elem_of_singleton; done].
  destruct body as [b|]; [|cbn [snd]; intros ->%list_elem_of_singleton; done].
  destruct (read_loop _ _ _). destruct (ending b);
    cbn [snd]; intros ->%list_elem_of_singleton; done.
Qed.

End Sessions.

(** ** Download controls *)

Section Downloads.
Import Dispatch.
Context `{Platform}.


End Downloads.

(** ** The client on sample streams *)

Section Samples.
Import ChatInterface Dispatch Sample.

Lemma streamed_content_is_concatenation_witness :
  attachments typed_hi = []
  ∧ trim (input typed_hi) ≠ []
  ∧ fetch_reply (streaming hello_world)
    = FetchResponse true 200 (inr [])
        (Some {| chunks := hello_world; ending := EndOfStream |})
  ∧ messages (sendMessage (streaming hello_world) typed_hi).1 !! 2%nat
    = Some (assistantMsg (js "Hello world")).
Proof.
  split; [reflexivity|]. split; [by vm_compute|]. split; [reflexivity|].
  exact (streamed_content_is_concatenation (streaming hello_world) typed_hi
           200 (inr []) _ eq_refl ltac:(by vm_compute) eq_refl).
Defined.

Lemma sendMessage_blank_is_noop_witness :
  forallb is_white_space (input typed_blank) = true
  ∧ attachments typed_blank = []
  ∧ sendMessage (streaming hello_world) typed_blank = (typed_blank, [])
  ∧ send_disabled typed_blank = true.
Proof.
  split; [reflexivity|]. split; [reflexivity|].
  exact (sendMessage_blank_is_noop (streaming hello_world) typed_blank eq_refl eq_refl).
Defined.

(** C3: a stream that delivers a fragment and then a terminal error
    event. The [throw] of the error branch is caught by the [catch] meant
    for parse failures: the event is logged to the console, the dispatch
    ends normally, and the message list holds the user's message and the
    assistant message with the text received so far, without any error
    bubble. *)
Example error_event_leaves_no_bubble :
  let s' := (sendMessage (streaming hel_then_error) typed_hi).1 in
  existsb is_error_event (received_events hel_then_error) = true
  ∧ messages s' = [greeting; userMsg typed_hi; assistantMsg (js "Hel")]
  ∧ isLoading s' = false
  ∧ console s'
    = [LogSSEParseError (Error (js "backend down"))
         (js "data: " ++ json "{'type':'error','content':'backend down'}")].
Proof. by vm_compute. Qed.


End Samples.

(** ** The quotation state machine *)

Section StateMachine.
Import QuotationStateMachine.
Variables ExtractedData CostBreakdown Score Cost : Type.

Abbreviation Quotation := (Quotation ExtractedData CostBreakdown Score Cost).
Abbreviation Op := (Op ExtractedData CostBreakdown Score Cost).

Implicit Types (q : Quotation) (o : Op) (store : gmap string Quotation).









End StateMachine.

Section StateMachineSamples.
Import QuotationStateMachine.


(** A [mark_failed] that comes before [begin_processing] is refused and
    writes nothing; the one after it takes [processing → failed], and
    nothing is written after that. *)
Lemma failing_run_history :
  status_history "q1" (created 0)
    (run failing_run 1 {["q1" := created 0]}).2
  = [pending; processing; failed]
  ∧ call (mark_failed "q1" "early") 1 {["q1" := created 0]}
    = inl InvalidTransitionError.
Proof. by vm_compute. Qed.

End StateMachineSamples.

(** ** Language detection, further *)

Section LanguageMore.
Import Language.

(** The binary64 test of [detectLanguage], in integers. *)
Lemma detectLanguage_ar_iff text :
  Z.of_nat (length text) < 2 ^ 51 →
  detectLanguage text = ar ↔
  existsb arabicPattern text = true
  ∧ 3 * Z.of_nat (length text) < 10 * Z.of_nat (match_count arabicPattern text).
Proof.
  intros Hlen. unfold detectLanguage.
  rewrite (gt_mul_0_3 _ _ (match_count_le arabicPattern text) Hlen).
  rewrite <- Z.ltb_lt.
  destruct (existsb arabicPattern text); destruct (_ <? _); cbn;
    intuition congruence.
Qed.

Lemma match_count_app p a b :
  match_count p (a ++ b) = (match_count p a + match_count p b)%nat.
Proof. unfold match_count, jsstring. by rewrite filter_app, length_app. Qed.

Lemma match_count_all p text :
  Forall (fun c => p c = true) text → match_count p text = length text.
Proof.
  intros Hall. unfold match_count, jsstring.
  induction Hall as [|c l Hc _ IH]; [done|].
  rewrite filter_cons_True by done. cbn. by rewrite IH.
Qed.

Lemma hasArabic_false text :
  Forall (fun c => arabicPattern c = false) text →
  existsb arabicPattern text = false.
Proof. induction 1 as [|c l Hc _ IH]; [done|]. cbn. by rewrite Hc, IH. Qed.

Lemma all_arabic_counts text :
  text ≠ [] → Forall (fun c => arabicPattern c = true) text →
  existsb arabicPattern text = true
  ∧ 3 * Z.of_nat (length text) < 10 * Z.of_nat (match_count arabicPattern text).
Proof.
  intros Hne Hall. rewrite match_count_all by done. split.
  - destruct Hall as [|c l Hc _]; [done|]. cbn. by rewrite Hc.
  - destruct text; [done|]. cbn [length]. lia.
Qed.

(** A text without any code unit of U+0600..U+06FF is [en], whatever its
    length, and is not right-to-left. *)
Theorem detectLanguage_without_arabic text :
  Forall (fun c => arabicPattern c = false) text →
  detectLanguage text = en ∧ isRTL text = false.
Proof.
  intros Hnone.
  assert (detectLanguage text = en) as Hen.
  { unfold detectLanguage. by rewrite (hasArabic_false text Hnone). }
  split; [done|]. unfold isRTL. rewrite Hen. by apply bool_decide_eq_false.
Qed.

(** The answer depends on which code units a text holds, not on their
    order. *)
Theorem detectLanguage_permutation text text' :
  text ≡ₚ text' → detectLanguage text = detectLanguage text'.
Proof.
  intros Hp. unfold detectLanguage, match_count.
  assert (existsb arabicPattern text = existsb arabicPattern text') as ->.
  { apply eq_true_iff_eq. rewrite !hasArabic_iff.
    split; intros (c & Hc & Ha); exists c; (split; [|done]).
    - by rewrite <- Hp.
    - by rewrite Hp. }
  unfold jsstring. by rewrite Hp.
Qed.

(** A non-empty text made only of code units of U+0600..U+06FF is [ar]. *)
Theorem detectLanguage_all_arabic text :
  text ≠ [] → Forall (fun c => arabicPattern c = true) text →
  Z.of_nat (length text) < 2 ^ 51 →
  detectLanguage text = ar.
Proof.
  intros Hne Hall Hlen. apply detectLanguage_ar_iff; [done|].
  by apply all_arabic_counts.
Qed.

(** Typing one more Arabic code unit keeps an [ar] text [ar]; typing one
    more code unit outside the range keeps an [en] text [en]. *)
Theorem detectLanguage_append text c :
  Z.of_nat (length text) + 1 < 2 ^ 51 →
  (arabicPattern c = true → detectLanguage text = ar →
   detectLanguage (text ++ [c]) = ar)
  ∧ (arabicPattern c = false → detectLanguage text = en →
     detectLanguage (text ++ [c]) = en).
Proof.
  intros Hlen.
  assert (Z.of_nat (length text) < 2 ^ 51) as Hlen0 by lia.
  assert (Z.of_nat (length (text ++ [c])) < 2 ^ 51) as Hlen1.
  { rewrite length_app. cbn. lia. }
  pose proof (detectLanguage_ar_iff text Hlen0) as H0.
  pose proof (detectLanguage_ar_iff (text ++ [c]) Hlen1) as H1.
  rewrite existsb_app, match_count_app, length_app in H1.
  unfold match_count at 2 in H1. unfold jsstring in H1. cbn [existsb length] in H1.
  split; intros Hc Hd.
  - apply H1. apply H0 in Hd as [_ Hd].
    rewrite filter_cons_True by done. rewrite Hc, orb_true_r. cbn. split; [done|lia].
  - destruct (detectLanguage (text ++ [c])) eqn:E; [|done].
    destruct (proj1 H1 eq_refl) as [Hex Hcount].
    rewrite filter_cons_False in Hcount by (rewrite Hc; done).
    rewrite Hc, !orb_false_r in Hex. cbn in Hcount.
    assert (detectLanguage text = ar) as Har by (apply H0; split; [done|lia]).
    congruence.
Qed.

End LanguageMore.

Section LanguageMoreSamples.
Import Language.

Lemma detectLanguage_without_arabic_witness :
  Forall (fun c => arabicPattern c = false) (js "2 floors, 300 m2")
  ∧ detectLanguage (js "2 floors, 300 m2") = en.
Proof.
  assert (Forall (fun c => arabicPattern c = false) (js "2 floors, 300 m2")) as H.
  { apply Forall_forall. intros c Hc. apply list_elem_of_In in Hc.
    vm_compute in Hc. intuition (subst; reflexivity). }
  split; [exact H|].
  exact (proj1 (detectLanguage_without_arabic (js "2 floors, 300 m2") H)).
Defined.

Lemma detectLanguage_permutation_witness :
  [1575; 97; 98; 1576]%N ≡ₚ [97; 1575; 1576; 98]%N
  ∧ detectLanguage [1575; 97; 98; 1576]%N = detectLanguage [97; 1575; 1576; 98]%N.
Proof.
  assert ([1575; 97; 98; 1576]%N ≡ₚ [97; 1575; 1576; 98]%N) as H.
  { rewrite (Permutation_swap 1575%N 97%N). apply Permutation_skip.
    apply Permutation_skip. apply Permutation_swap. }
  split; [exact H|exact (detectLanguage_permutation _ _ H)].
Defined.

Lemma detectLanguage_all_arabic_witness :
  [1605; 1585; 1581; 1576; 1575]%N ≠ []
  ∧ Forall (fun c => arabicPattern c = true) [1605; 1585; 1581; 1576; 1575]%N
  ∧ detectLanguage [1605; 1585; 1581; 1576; 1575]%N = ar.
Proof.
  assert (Forall (fun c => arabicPattern c = true) [1605; 1585; 1581; 1576; 1575]%N) as H
    by (repeat constructor).
  assert ([1605; 1585; 1581; 1576; 1575]%N ≠ []) as Hne by done.
  split; [exact Hne|]. split; [exact H|].
  exact (detectLanguage_all_arabic _ Hne H eq_refl).
Defined.

Lemma detectLanguage_append_witness :
  Z.of_nat (length [1605; 97]%N) + 1 < 2 ^ 51
  ∧ detectLanguage ([1605; 97]%N ++ [1585%N]) = ar.
Proof.
  split; [reflexivity|].
  exact (proj1 (detectLanguage_append [1605; 97]%N 1585%N eq_refl) eq_refl eq_refl).
Defined.

End LanguageMoreSamples.

(** ** The streaming dispatch, further *)

Section DispatchMore.
Import ChatInterface Dispatch Observations LineTrace.
Context `{Platform}.

(** Joining the pieces of a split gives the text back. *)
Lemma join_nl_split_nl s : join_nl (split_nl s) = s.
Proof.
  induction s as [|c s IH]; [done|].
  pose proof (split_nl_nonempty s) as Hne. cbn [split_nl].
  destruct (c =? 10)%N eqn:Ec.
  - apply N.eqb_eq in Ec as ->.
    destruct (split_nl s) as [|l ls]; [done|]. cbn [join_nl app].
    by rewrite <- IH.
  - destruct (split_nl s) as [|l [|l2 ls]]; [done| |].
    + cbn in IH |- *. by rewrite IH.
    + rewrite <- IH. done.
Qed.

Lemma join_nl_snoc ls p :
  ls ≠ [] → join_nl (ls ++ [p]) = join_nl ls ++ 10%N :: p.
Proof.
  induction ls as [|l [|l2 ls] IH]; [done|done|]. intros _.
  change ((l :: l2 :: ls) ++ [p]) with (l :: ((l2 :: ls) ++ [p])).
  change (join_nl (l :: (l2 :: ls) ++ [p]))
    with (l ++ 10%N :: join_nl ((l2 :: ls) ++ [p])).
  rewrite IH by done. cbn [join_nl]. by rewrite <- !app_assoc.
Qed.

(** The unfinished piece the loop keeps in [buffer]. *)
Lemma read_loop_buffer cs l s :
  split_nl (buffer l) = [buffer l] →
  buffer (read_loop cs l s).1
  = default [] (last (split_nl (buffer l ++ decoded (decoder l) cs))).
Proof.
  revert l s. induction cs as [|value cs IH]; intros l s Hb.
  { cbn [decoded read_loop fst]. by rewrite app_nil_r, Hb. }
  cbn [decoded read_loop]. unfold read_step, pop.
  destruct (TextDecoder_decode (decoder l) value) as [text dec].
  rewrite or_empty_id.
  destruct (foldl process_line (fullResponse l, s)
              (removelast (split_nl (buffer l ++ text)))) as [full s'].
  rewrite IH; cbn [buffer decoder fullResponse].
  - by rewrite app_assoc, (last_split_nl_app (buffer l ++ text)).
  - pose proof (split_nl_nonempty (buffer l ++ text)) as Hne.
    destruct (last (split_nl (buffer l ++ text))) as [p|] eqn:El.
    + by apply split_nl_last in El.
    + by apply last_None in El.
Qed.

Lemma removelast_last_split_nl t :
  split_nl t = removelast (split_nl t) ++ [default [] (last (split_nl t))].
Proof.
  pose proof (split_nl_nonempty t) as Hne.
  destruct (split_nl t) as [|x l] using rev_ind; [done|].
  by rewrite removelast_last, last_snoc.
Qed.

Lemma lines_of_step_removelast l value :
  lines_of_step l value
  = removelast (split_nl (buffer l ++ (TextDecoder_decode (decoder l) value).1)).
Proof.
  unfold lines_of_step. by destruct (TextDecoder_decode (decoder l) value).
Qed.

(** The state after one iteration is the fold of [process_line] over the
    lines the iteration hands on. *)
Lemma read_step_handed l s value :
  (fullResponse (read_step l s value).1, (read_step l s value).2)
  = foldl process_line (fullResponse l, s) (lines_of_step l value).
Proof.
  unfold read_step, lines_of_step, pop.
  destruct (TextDecoder_decode (decoder l) value) as [text dec]. cbn [fst].
  by destruct (foldl process_line _ _).
Qed.

Lemma read_loop_handed cs l s :
  (fullResponse (read_loop cs l s).1, (read_loop cs l s).2)
  = foldl process_line (fullResponse l, s) (handed cs l s).
Proof.
  revert l s. induction cs as [|value cs IH]; intros l s; [done|].
  cbn [read_loop handed]. pose proof (read_step_handed l s value) as Hs.
  destruct (read_step l s value) as [l' s']. cbn [fst snd] in Hs.
  rewrite foldl_app, <- Hs. apply IH.
Qed.

(** The lines handed on are the finished lines of the text given to the
    loop, whatever the chunk boundaries. *)
Lemma handed_lines cs l s :
  split_nl (buffer l) = [buffer l] →
  handed cs l s = removelast (split_nl (buffer l ++ decoded (decoder l) cs)).
Proof.
  revert l s. induction cs as [|value cs IH]; intros l s Hb.
  { cbn [decoded handed]. by rewrite app_nil_r, Hb. }
  cbn [decoded handed]. rewrite lines_of_step_removelast.
  unfold read_step, pop.
  destruct (TextDecoder_decode (decoder l) value) as [text dec]. cbn [fst].
  rewrite or_empty_id.
  destruct (foldl process_line (fullResponse l, s)
              (removelast (split_nl (buffer l ++ text)))) as [full s'].
  rewrite IH; cbn [buffer decoder fullResponse].
  - by rewrite app_assoc, (removelast_split_nl_app (buffer l ++ text)).
  - pose proof (split_nl_nonempty (buffer l ++ text)) as Hne.
    destruct (last (split_nl (buffer l ++ text))) as [p|] eqn:El.
    + by apply split_nl_last in El.
    + by apply last_None in El.
Qed.

(** Nothing of the body is lost or repeated by the line buffer. The
    state the loop leaves is the fold of [process_line] over the lines its
    iterations handed on, in order; and those lines, with the piece still
    in [buffer], joined by line feeds, are the decoded text of the
    body. *)
Theorem read_loop_keeps_all_text cs s :
  (fullResponse (read_loop cs {| decoder := TextDecoder_new; buffer := [];
                                 fullResponse := [] |} s).1,
   (read_loop cs {| decoder := TextDecoder_new; buffer := [];
                    fullResponse := [] |} s).2)
  = foldl process_line ([], s)
      (handed cs {| decoder := TextDecoder_new; buffer := [];
                    fullResponse := [] |} s)
  ∧ join_nl (handed cs {| decoder := TextDecoder_new; buffer := [];
                          fullResponse := [] |} s
             ++ [buffer (read_loop cs
                           {| decoder := TextDecoder_new; buffer := [];
                              fullResponse := [] |} s).1])
    = decoded TextDecoder_new cs.
Proof.
  split; [apply read_loop_handed|].
  rewrite handed_lines, read_loop_buffer by done. cbn [buffer decoder app].
  rewrite <- removelast_last_split_nl. apply join_nl_split_nl.
Qed.

(** The cells a stream line never touches. *)
Lemma process_line_cells acc line :
  input (process_line acc line).2 = input acc.2
  ∧ isLoading (process_line acc line).2 = isLoading acc.2
  ∧ attachments (process_line acc line).2 = attachments acc.2
  ∧ sessionId (process_line acc line).2 = sessionId acc.2.
Proof.
  destruct acc as [full s]. unfold process_line.
  destruct (startsWith _ _); [|done].
  unfold sse_try. destruct (JSON_parse _) as [data|]; [|done].
  repeat case_bool_decide; try done. by destruct (truthy _).
Qed.

Lemma foldl_process_line_cells lines acc :
  input (foldl process_line acc lines).2 = input acc.2
  ∧ isLoading (foldl process_line acc lines).2 = isLoading acc.2
  ∧ attachments (foldl process_line acc lines).2 = attachments acc.2
  ∧ sessionId (foldl process_line acc lines).2 = sessionId acc.2.
Proof.
  revert acc. induction lines as [|line lines IH]; intros acc; [done|].
  cbn [foldl]. destruct (IH (process_line acc line)) as (-> & -> & -> & ->).
  apply process_line_cells.
Qed.

(** The loop, as a fold of [process_line] over the lines of the body. *)
Lemma read_loop_received cs s :
  (read_loop cs {| decoder := TextDecoder_new; buffer := []; fullResponse := [] |} s).2
  = (foldl process_line ([], s) (received_lines cs)).2.
Proof.
  pose proof (read_loop_lines cs
    {| decoder := TextDecoder_new; buffer := []; fullResponse := [] |} s eq_refl) as Hl.
  exact (f_equal snd Hl).
Qed.

(** A streaming dispatch, whole: the one request, and the state the
    fold over the lines leaves, through the [catch] if reading failed and
    the [finally]. *)
Lemma stream_dispatch_whole net s status text body :
  attachments s = [] → nothing_to_send s = false →
  fetch_reply net = FetchResponse true status text (Some body) →
  sendMessage net s
  = (stream_finish (ending body)
       (foldl process_line ([], stream_start s) (received_lines (chunks body))).2,
     [FetchPost (apiUrl ++ js "/api/v1/chat/stream") (js "application/json")
        {| sb_message := input s; sb_history := historyForRequest (messages s);
           sb_session_id := sessionId s; sb_quotation_id := quotationId s |}]).
Proof.
  intros Ha Hn Hf. unfold sendMessage. rewrite Hn.
  unfold try_send. cbv zeta. rewrite Ha, Hf. cbn [length Nat.ltb Nat.leb negb].
  rewrite <- read_loop_received. unfold stream_start. cbv zeta.
  destruct (read_loop _ _ _) as [l' s']. cbn [snd].
  by destruct (ending body).
Qed.

(** How the body is cut into chunks does not matter: two replies whose
    decoded texts are equal, and that end the same way, leave the same
    state and send the same request. *)
Theorem chunking_is_irrelevant net1 net2 s st1 tx1 b1 st2 tx2 b2 :
  attachments s = [] → trim (input s) ≠ [] →
  fetch_reply net1 = FetchResponse true st1 tx1 (Some b1) →
  fetch_reply net2 = FetchResponse true st2 tx2 (Some b2) →
  decoded TextDecoder_new (chunks b1) = decoded TextDecoder_new (chunks b2) →
  ending b1 = ending b2 →
  sendMessage net1 s = sendMessage net2 s.
Proof.
  intros Ha Hi Hf1 Hf2 Hd He.
  pose proof (not_nothing_to_send s Hi) as Hn.
  rewrite (stream_dispatch_whole net1 s st1 tx1 b1 Ha Hn Hf1).
  rewrite (stream_dispatch_whole net2 s st2 tx2 b2 Ha Hn Hf2).
  unfold received_lines. by rewrite Hd, He.
Qed.

(** *** Linking a quotation *)






(** *** Failures *)

(** When reading the body fails, the dispatch ends with one error
    bubble, appended last, right behind the assistant message of the
    dispatch; its text is chosen from the failure, which is also the last
    thing logged to the console; and the typing indicator is switched
    off. *)
Theorem read_failure_shows_error_bubble net s status text body e :
  attachments s = [] → trim (input s) ≠ [] →
  fetch_reply net = FetchResponse true status text (Some body) →
  ending body = ReadRejected e →
  (∃ reply,
     messages (sendMessage net s).1
     = messages s
       ++ [userMsg s; assistantMsg reply; assistantMsg (errorMessage e)])
  ∧ last (console (sendMessage net s).1) = Some (LogSendError e)
  ∧ isLoading (sendMessage net s).1 = false.
Proof.
  intros Ha Hi Hf He. pose proof (not_nothing_to_send s Hi) as Hn. split.
  - eexists. by rewrite (stream_dispatch_messages net s status text body Ha Hn Hf), He.
  - rewrite (stream_dispatch_whole net s status text body Ha Hn Hf), He.
    split; [|done]. cbn. apply last_snoc.
Qed.

(** The bubble for a response that is not [ok]. No assistant
    placeholder is appended. When the body of the response can be read,
    the bubble has the invalid-request text exactly when the decimal
    digits of the status contain 422, and otherwise the server-error text
    with the status, never the connection-error text. When reading the
    body fails, the bubble is chosen from that failure instead. *)
Theorem http_error_bubble net s status text body :
  attachments s = [] → trim (input s) ≠ [] →
  fetch_reply net = FetchResponse false status text body →
  messages (sendMessage net s).1
  = messages s
    ++ [userMsg s;
        assistantMsg
          match text with
          | inr _ =>
              if includes (js "422") (of_N status)
              then js "Invalid request format. Please try again."
              else js "Server error: HTTP error! status: " ++ of_N status
          | inl e => errorMessage e
          end]
  ∧ isLoading (sendMessage net s).1 = false.
Proof.
  intros Ha Hi Hf. pose proof (not_nothing_to_send s Hi) as Hn.
  unfold sendMessage. rewrite Hn. unfold try_send. cbv zeta.
  rewrite Ha, Hf. cbn [length Nat.ltb Nat.leb negb fst snd].
  destruct text as [e|errorText]; cbn [fst snd]; (split; [|done]);
    cbn [catch_send setIsLoading setMessages set_assistantMessageRef console_error
         setAttachments setInput messages];
    rewrite <- app_assoc; cbn [app]; [done|].
  do 3 f_equal.
Qed.

(** *** Every turn *)

(** Whatever the network answers, a turn that was sent is one request
    carrying the input as typed, and it leaves the prior messages as they
    were, followed by the user's message, an assistant message and at most
    one error bubble behind it. *)
Theorem sent_turn_shape net s :
  nothing_to_send s = false →
  (∃ r, (sendMessage net s).2 = [r] ∧ request_message r = Some (input s))
  ∧ ∃ reply rest,
      messages (sendMessage net s).1
      = messages s ++ [userMsg s; assistantMsg reply] ++ rest
      ∧ (rest = [] ∨ ∃ e, rest = [assistantMsg (errorMessage e)]).
Proof.
  intros Hn.
  destruct (attachments s) as [|a l] eqn:Ea.
  - destruct (fetch_reply net) as [e|[|] status text [b|]] eqn:Hf.
    2:{ rewrite (stream_dispatch_messages net s status text b Ea Hn Hf).
        rewrite (stream_dispatch_whole net s status text b Ea Hn Hf). cbn [snd].
        split; [by eexists|]. eexists _, _. split; [reflexivity|].
        destruct (ending b); [by left|right; by eexists]. }
    all: unfold sendMessage; rewrite Hn; unfold try_send; cbv zeta;
      rewrite Ea, Hf; cbn [length Nat.ltb Nat.leb negb];
      try destruct text as [e'|t]; cbn [fst snd];
      (split; [by eexists|]);
      cbn [catch_send setIsLoading setMessages set_assistantMessageRef
           console_error setAttachments setInput messages];
      rewrite <- ?app_assoc; cbn [app];
      eexists _, []; (split; [reflexivity|by left]).
  - unfold sendMessage; rewrite Hn; unfold try_send; cbv zeta.
    rewrite Ea. cbn [length Nat.ltb Nat.leb].
    destruct (axios_reply net) as [response q|e]; [destruct (truthy q)|];
      cbn [fst snd]; (split; [by eexists|]);
      cbn [catch_send setIsLoading setMessages set_assistantMessageRef
           console_error setAttachments setInput messages setQuotationId
           localStorage_setItem];
      rewrite <- ?app_assoc; cbn [app];
      eexists _, []; (split; [reflexivity|by left]).
Qed.

(** A turn that was sent ends with the input box and the attachment tray
    empty and the typing indicator off, and with the session id it had. *)
Lemma sent_turn_cells net s :
  nothing_to_send s = false →
  input (sendMessage net s).1 = []
  ∧ attachments (sendMessage net s).1 = []
  ∧ isLoading (sendMessage net s).1 = false
  ∧ sessionId (sendMessage net s).1 = sessionId s.
Proof.
  intros Hn.
  destruct (attachments s) as [|a l] eqn:Ea.
  - destruct (fetch_reply net) as [e|[|] status text [b|]] eqn:Hf.
    2:{ rewrite (stream_dispatch_whole net s status text b Ea Hn Hf). cbn [fst].
        destruct (foldl_process_line_cells (received_lines (chunks b))
                    ([], stream_start s)) as (Hi & _ & Hat & Hs).
        destruct (ending b); cbn; rewrite Hi, Hat, Hs; done. }
    all: unfold sendMessage; rewrite Hn; unfold try_send; cbv zeta;
      rewrite Ea, Hf; cbn [length Nat.ltb Nat.leb negb];
      try destruct text as [e'|t]; done.
  - unfold sendMessage; rewrite Hn; unfold try_send; cbv zeta.
    rewrite Ea. cbn [length Nat.ltb Nat.leb].
    destruct (axios_reply net) as [response q|e]; [destruct (truthy q)|]; done.
Qed.

(** Sending again right after a send does nothing: the first send either
    was refused by the guard or emptied the input and the tray, so the
    second is refused; no turn goes out twice. *)
Theorem resend_is_noop net1 net2 s :
  sendMessage net2 (sendMessage net1 s).1 = ((sendMessage net1 s).1, []).
Proof.
  destruct (nothing_to_send s) eqn:Hn.
  - unfold sendMessage at 2 3. rewrite Hn. cbn [fst].
    unfold sendMessage. by rewrite Hn.
  - destruct (sent_turn_cells net1 s Hn) as (Hi & Ha & _).
    unfold sendMessage at 1.
    replace (nothing_to_send (sendMessage net1 s).1) with true; [done|].
    unfold nothing_to_send. by rewrite Hi, Ha.
Qed.

(** Every request of a session that has its generated id carries that
    id, in the streaming and in the multipart mode alike. *)
Theorem requests_carry_session_id net s rnd :
  sessionId s = Some (generateSessionId rnd) →
  ∀ r, r ∈ (sendMessage net s).2 →
       request_session_id r = Some (generateSessionId rnd).
Proof.
  intros Hs r. unfold sendMessage.
  destruct (nothing_to_send s); [by intros ?%elem_of_nil|].
  unfold try_send. cbv zeta. rewrite Hs.
  destruct (0 <? length (attachments s))%nat.
  - destruct (axios_reply net) as [resp q|e]; [destruct (truthy q)|];
      cbn [snd]; intros ->%list_elem_of_singleton; done.
  - destruct (fetch_reply net) as [e|ok status text body];
      [cbn [snd]; intros ->%list_elem_of_singleton; done|].
    destruct ok; cbn [negb];
      [|destruct text; cbn [snd]; intros ->%list_elem_of_singleton; done].
    destruct body as [b|]; [|cbn [snd]; intros ->%list_elem_of_singleton; done].
    destruct (read_loop _ _ _). destruct (ending b);
      cbn [snd]; intros ->%list_elem_of_singleton; done.
Qed.

(** Of two content updates in a row the later one wins, and the result
    is what the later one alone would have given. *)
Theorem update_assistant_last_wins idx full1 full2 prev :
  update_assistant idx full2 (update_assistant idx full1 prev)
  = update_assistant idx full2 prev.
Proof.
  unfold update_assistant at 2.
  destruct ((0 <=? idx) && (idx <? Z.of_nat (length prev))) eqn:Hr; [|done].
  destruct (prev !! Z.to_nat idx) as [m|] eqn:Hm; [|done].
  case_bool_decide as Hrole; [|done].
  unfold update_assistant. rewrite length_insert, Hr, Hm.
  rewrite list_lookup_insert_eq by (by eapply lookup_lt_Some).
  cbn [role msg_attachments]. rewrite !bool_decide_true by done.
  by rewrite list_insert_insert_eq.
Qed.

End DispatchMore.

(** ** A dispatch among other tasks *)

Section InterruptedDispatch.
Import ChatInterface Dispatch Observations EventLoop.
Context `{Platform}.

Lemma foldl_run_task_chunks cs acc :
  foldl run_task acc (ChunkRead <$> cs) = read_loop cs acc.1 acc.2.
Proof.
  revert acc. induction cs as [|value cs IH]; intros [l s]; [done|].
  cbn [fmap list_fmap foldl run_task read_loop fst snd].
  rewrite IH. by destruct (read_step l s value).
Qed.

(** With no other task in between, [dispatch_among] is the streaming
    dispatch of [sendMessage]. *)
Lemma dispatch_among_chunks net s status text body :
  attachments s = [] → nothing_to_send s = false →
  fetch_reply net = FetchResponse true status text (Some body) →
  ending body = EndOfStream →
  dispatch_among (ChunkRead <$> chunks body) s = (sendMessage net s).1.
Proof.
  intros Ha Hn Hf He.
  rewrite (stream_dispatch_whole net s status text body Ha Hn Hf), He.
  unfold dispatch_among. rewrite foldl_run_task_chunks. cbn [fst snd].
  by rewrite read_loop_received.
Qed.

(** A [done] event that carries a non-empty quotation id links it,
    whatever session the component is in when the event is handled. *)
Lemma done_line_links_any_session full s line data q :
  startsWith (js "data: ") line = true →
  JSON_parse (slice 6 line) = Some data →
  sse_type data = Some (js "done") →
  sse_quotation_id data = Some q → q ≠ [] →
  quotationId (process_line (full, s) line).2 = Some q
  ∧ sessionId (process_line (full, s) line).2 = sessionId s.
Proof.
  intros Hp Hj Ht Hq Hne. unfold process_line. rewrite Hp.
  unfold sse_try. rewrite Hj, Ht, Hq.
  rewrite bool_decide_false by (by vm_compute).
  rewrite bool_decide_true by done.
  by destruct q.
Qed.

End InterruptedDispatch.

Section InterruptedDispatchSample.
Import ChatInterface Dispatch Observations EventLoop Sample MoreSamples.

(** C5 fails on the code when New Chat is pressed while a reply is still
    streaming. The handler resets the session and the quotation id, but
    the dispatch of the old conversation goes on, and when its [done]
    event arrives it sets the quotation id again: the new session, with
    its new session id and only the greeting on screen, is linked to the
    quotation of the old one, shows its banner, and sends its id with the
    next turn. *)
Theorem new_chat_during_stream_inherits_quotation :
  sessionId typed_hi = Some (generateSessionId (js "k3x9"))
  ∧ quotationId typed_hi = None
  ∧ sessionId (dispatch_among new_chat_midway typed_hi)
    = Some (generateSessionId (js "n7w2"))
  ∧ messages (dispatch_among new_chat_midway typed_hi) = [greeting]
  ∧ quotationId (dispatch_among new_chat_midway typed_hi) = Some (js "quot-1")
  ∧ localStorage (dispatch_among new_chat_midway typed_hi) !! js "quotation_id"
    = Some (js "quot-1")
  ∧ render_banner (dispatch_among new_chat_midway typed_hi)
    = Some {| banner_label := js "Quotation Ready: quot-1...";
              banner_download_for := js "quot-1" |}
  ∧ (request_session_id <$>
       (sendMessage (streaming [])
          (setInput (js "a new project")
             (dispatch_among new_chat_midway typed_hi))).2,
     request_quotation_id <$>
       (sendMessage (streaming [])
          (setInput (js "a new project")
             (dispatch_among new_chat_midway typed_hi))).2)
    = ([Some (generateSessionId (js "n7w2"))], [Some (js "quot-1")]).
Proof. by vm_compute. Qed.

End InterruptedDispatchSample.

(** ** The attachment tray *)

Section AttachmentFacts.
Import ChatInterface Attachments.

Lemma setAttachments_same s : setAttachments (attachments s) s = s.
Proof. by destruct s. Qed.

Lemma setAttachments_twice l1 l2 s :
  setAttachments l2 (setAttachments l1 s) = setAttachments l2 s.
Proof. done. Qed.

(** Selecting files appends one attachment per file, in the order of the
    selection, behind those already in the tray, and touches nothing
    else; a file is an image exactly when its MIME type starts with
    [image/]. *)
Theorem handleFileSelect_appends files s :
  handleFileSelect files s
  = setAttachments
      (attachments s ++ ((fun fu => attachment_of fu.1 fu.2) <$> files)) s.
Proof.
  unfold handleFileSelect. revert s.
  induction files as [|fu files IH]; intros s; cbn [foldl fmap list_fmap].
  { by rewrite app_nil_r, setAttachments_same. }
  rewrite IH. cbn [attachments setAttachments].
  by rewrite <- app_assoc.
Qed.

Lemma filter_index_remove {A} (l : list A) (index i : nat) :
  filter_index (fun _ j => negb (j =? index + i)%nat) i l = delete index l.
Proof.
  revert index i. induction l as [|x l IH]; intros index i; [by destruct index|].
  cbn [filter_index]. destruct index as [|index].
  - cbn [Nat.add]. rewrite Nat.eqb_refl. cbn [negb delete list_delete].
    clear IH. generalize (Nat.lt_succ_diag_r i). generalize (S i) as k.
    induction l as [|y l IHl]; intros k Hk; [done|].
    cbn [filter_index]. rewrite (proj2 (Nat.eqb_neq k i)) by lia.
    cbn [negb]. f_equal. apply IHl. lia.
  - rewrite (proj2 (Nat.eqb_neq i (S index + i))) by lia.
    cbn [negb delete list_delete]. f_equal.
    replace (S index + i)%nat with (index + S i)%nat by lia. apply IH.
Qed.

(** Removing the attachment at an index of the tray revokes the object
    URL of that attachment and of no other, takes exactly that attachment
    out and keeps the others in order. *)
Theorem removeAttachment_in_range index s a :
  attachments s !! index = Some a →
  removeAttachment index s
  = inr (setAttachments (delete index (attachments s)) s, [a_url a])
  ∧ length (delete index (attachments s)) = pred (length (attachments s))
  ∧ (∀ j, (j < index)%nat →
          delete index (attachments s) !! j = attachments s !! j)
  ∧ (∀ j, (index ≤ j)%nat →
          delete index (attachments s) !! j = attachments s !! S j).
Proof.
  intros Ha. unfold removeAttachment. rewrite Ha.
  pose proof (filter_index_remove (attachments s) index 0) as Hf.
  rewrite Nat.add_0_r in Hf. rewrite Hf.
  split; [done|]. split; [|split].
  - rewrite length_delete; [lia|by eexists].
  - intros j Hj. by apply list_lookup_delete_lt.
  - intros j Hj. by apply list_lookup_delete_ge.
Qed.

(** At an index outside the tray [removeAttachment] throws before it
    revokes or changes anything. *)
Theorem removeAttachment_out_of_range index s :
  (length (attachments s) ≤ index)%nat →
  ∃ e, removeAttachment index s = inl e.
Proof.
  intros Hi. unfold removeAttachment.
  rewrite (lookup_ge_None_2 _ _ Hi). by eexists.
Qed.

(** Selecting one file and removing it again restores the state, and
    revokes the object URL that the selection created. *)
Theorem select_then_remove f url s :
  removeAttachment (length (attachments s)) (handleFileSelect [(f, url)] s)
  = inr (s, [url]).
Proof.
  unfold handleFileSelect. cbn [foldl fst snd].
  unfold removeAttachment. cbn [attachments setAttachments].
  rewrite list_lookup_middle by done.
  pose proof (filter_index_remove (attachments s ++ [attachment_of f url])
                (length (attachments s)) 0) as Hf.
  rewrite Nat.add_0_r in Hf. rewrite Hf.
  rewrite delete_middle, app_nil_r, setAttachments_twice, setAttachments_same.
  done.
Qed.

End AttachmentFacts.

(** ** Message bubbles *)

Section BubbleFacts.
Import ChatInterface MessageBubble Language.

Lemma errorMessage_nonempty e : ∃ c m, errorMessage e = c :: m.
Proof.
  unfold errorMessage. destruct (message e) as [m|]; [|by eexists _, _].
  destruct (includes (js "422") m); [by eexists _, _|].
  destruct (includes (js "status") m); by eexists _, _.
Qed.

(** A message that [sendMessage] accepts always shows as a bubble: the
    guard lets through only what [MessageBubble] renders. *)
Theorem sent_message_is_visible s :
  nothing_to_send s = false → is_Some (MessageBubble (userMsg s)).
Proof.
  unfold nothing_to_send, MessageBubble, userMsg.
  cbn [content msg_attachments role]. rewrite length_fmap.
  destruct (input s) as [|c i]; cbn [truthy negb andb].
  - change (trim []) with (@nil N). cbn [truthy negb andb]. intros ->. by eexists.
  - intros _. by eexists.
Qed.

(** The assistant message of a dispatch shows no bubble until it has
    text; an error bubble and the greeting always show. *)
Theorem assistant_bubble_visibility c e :
  (MessageBubble (assistantMsg c) = None ↔ c = [])
  ∧ is_Some (MessageBubble (assistantMsg (errorMessage e)))
  ∧ is_Some (MessageBubble greeting).
Proof.
  split; [|split].
  - unfold MessageBubble, assistantMsg. cbn [content msg_attachments].
    destruct c; cbn [truthy negb andb]; split; done.
  - destruct (errorMessage_nonempty e) as (x & m & ->). by eexists.
  - by eexists.
Qed.

(** A bubble shows the content of its message unchanged, on the user's
    side exactly for a user message; it is laid out left-to-right when the
    content holds no code unit of U+0600..U+06FF, and right-to-left when
    the content is made of such code units only. *)
Theorem bubble_layout m b :
  MessageBubble m = Some b →
  markdown b = content m
  ∧ (isUser b = true ↔ role m = user)
  ∧ (Forall (fun c => arabicPattern c = false) (content m) → dir b = ltr)
  ∧ (content m ≠ [] → Forall (fun c => arabicPattern c = true) (content m) →
     Z.of_nat (length (content m)) < 2 ^ 51 → dir b = rtl).
Proof.
  unfold MessageBubble. destruct (_ && _); [done|]. intros [= <-].
  cbn [markdown isUser dir]. split; [done|]. split; [apply bool_decide_eq_true|].
  split.
  - intros Hn. unfold detectLanguage. by rewrite (hasArabic_false _ Hn).
  - intros Hne Hall Hlen.
    by rewrite (proj2 (detectLanguage_ar_iff _ Hlen) (all_arabic_counts _ Hne Hall)).
Qed.

End BubbleFacts.

(** ** Downloads to their end *)

Section DownloadFacts.
Import DownloadButtons DownloadFlow.
Context `{Platform}.

(** A click on disabled controls, or while a download is in progress,
    does nothing at all. Otherwise it sends the one request of
    [handleDownload], keeps all three buttons disabled while that request
    is in flight, and ends with [downloading] back to null: with the file
    saved under [quotation_<id>.<extension>] if the request succeeded, with
    an alert and nothing saved if it failed. Different formats give
    different extensions. *)
Theorem download_click_settles p format downloading reply :
  (button_disabled p downloading = true →
   handleDownload_settled p format downloading reply = (downloading, [], []))
  ∧ (button_disabled p downloading = false →
     (handleDownload_settled p format downloading reply).1.1 = None
     ∧ (handleDownload_settled p format downloading reply).1.2
       = (handleDownload p format downloading).2
     ∧ length (handleDownload p format downloading).2 = 1%nat
     ∧ button_disabled p (handleDownload p format downloading).1 = true
     ∧ (handleDownload_settled p format downloading reply).2
       = match reply with
         | inr data =>
             [SaveAs (js "quotation_" ++ quotationId p ++ js "." ++ extension format)
                     data]
         | inl _ =>
             [Alert (js "Failed to download " ++ format_name format
                       ++ js ". Please try again.")]
         end)
  ∧ (∀ f1 f2, extension f1 = extension f2 → f1 = f2).
Proof.
  unfold handleDownload_settled, handleDownload, button_disabled.
  split; [|split].
  - by intros ->.
  - intros ->. cbn [fst snd]. rewrite orb_true_r.
    destruct reply; done.
  - intros [] []; by vm_compute.
Qed.

End DownloadFacts.

(** ** The status page while it loads *)

Section StatusPageFacts.
Import QuotationStatusPage StatusPageHandlers Dispatch.

Lemma arrive_keeps_quotation s a :
  keeps_quotation a = true →
  quotation_loaded s = true → quotation_loaded (arrive s a) = true.
Proof. destruct a as [[[|]|]|[|]]; done. Qed.

Lemma foldl_arrive_keeps_quotation arrivals s :
  forallb keeps_quotation arrivals = true →
  quotation_loaded s = true → quotation_loaded (foldl arrive s arrivals) = true.
Proof.
  revert s. induction arrivals as [|a l IH]; intros s Hk Hq; [done|].
  cbn [forallb] in Hk. apply andb_true_iff in Hk as [Ha Hl].
  cbn [foldl]. apply IH; [done|]. by apply arrive_keeps_quotation.
Qed.

(** Once a quotation reply with a truthy body has arrived, the page
    shows its main view whatever arrives afterwards, as long as no later
    quotation reply has a falsy body: a later failure never brings back
    the loading screen or the error screen. A quotation reply with a
    falsy body does not count as arrived: with nothing else on the page,
    a failed status request after it shows the error screen. *)
Theorem main_view_is_stable id before after :
  forallb keeps_quotation after = true →
  (∃ download failed_notice,
     render (foldl arrive (mount id)
               (before ++ QuotationArrived (Resolved true) :: after))
     = MainView download failed_notice)
  ∧ ∀ detail,
      render (foldl arrive (mount id)
                [QuotationArrived (Resolved false); StatusArrived (Rejected detail)])
      = ErrorView (detail_or detail "Failed to load status").
Proof.
  intros Hk. split.
  - rewrite foldl_app. cbn [foldl].
    set (s := arrive (foldl arrive (mount id) before)
                (QuotationArrived (Resolved true))).
    assert (quotation_loaded (foldl arrive s after) = true) as Hq
      by by apply foldl_arrive_keeps_quotation.
    unfold render. rewrite Hq. cbn [negb]. rewrite !andb_false_r. by eexists _, _.
  - intros detail. cbn [foldl arrive fetchQuotation fetchStatus mount].
    unfold render.
    cbn [loading quotation_loaded QuotationStatusPage.error andb negb].
    assert (truthy (Some (detail_or detail "Failed to load status")) = true) as ->;
      [|done].
    unfold detail_or. by destruct detail as [[|c d]|].
Qed.

Lemma detail_or_truthy detail fallback :
  fallback ≠ EmptyString → truthy (Some (detail_or detail fallback)) = true.
Proof.
  intros Hf. unfold detail_or. destruct detail as [[|c d]|]; cbn; try done;
    by destruct fallback.
Qed.

(** A request that fails before the quotation has arrived puts the page
    on its error screen, showing the [detail] of the error response or, if
    there is none, the fallback text of that request. *)
Theorem load_failure_shows_error s detail :
  quotation_loaded s = false →
  render (fetchStatus (Rejected detail) s)
  = ErrorView (detail_or detail "Failed to load status")
  ∧ render (fetchQuotation (Rejected detail) s)
    = ErrorView (detail_or detail "Failed to load quotation").
Proof.
  intros Hq. unfold render, fetchStatus, fetchQuotation.
  cbn [loading quotation_loaded QuotationStatusPage.error andb].
  rewrite Hq, !detail_or_truthy by done. done.
Qed.

(** The page stops polling exactly on the two terminal statuses: while
    it offers the download, or shows the failure notice, the interval
    fetches nothing; it never shows both; and as long as no status has
    arrived it keeps fetching. *)
Theorem terminal_status_stops_polling s :
  (is_Some (offers_download (render s)) → interval_fetches s = false)
  ∧ (status_is s "failed" = true →
     interval_fetches s = false ∧ offers_download (render s) = None)
  ∧ (interval_fetches s = false →
     status_is s "completed" = true ∨ status_is s "failed" = true)
  ∧ (status_cell s = None → interval_fetches s = true).
Proof.
  unfold interval_fetches, should_poll, render, status_is.
  split; [|split; [|split]].
  - destruct (_ && _); [by intros [? ?]|]. destruct (_ && _); [by intros [? ?]|].
    cbn [offers_download]. destruct (status_cell s) as [r|]; [|by intros [? ?]].
    case_bool_decide; [done|by intros [? ?]].
  - destruct (status_cell s) as [r|]; [|done].
    case_bool_decide as Hf; [|done]. intros _.
    rewrite (bool_decide_false (status r = js "completed"))
      by (rewrite Hf; by vm_compute).
    split; [done|]. destruct (_ && _); [done|]. by destruct (_ && _).
  - destruct (status_cell s) as [r|]; [|done].
    repeat case_bool_decide; cbn; auto.
  - by intros ->.
Qed.

(** The colour of the status badge tells whether the page still polls:
    green or red exactly when the interval has stopped fetching, blue or
    grey while it goes on. *)
Theorem status_colour_matches_polling s r :
  status_cell s = Some r →
  (interval_fetches s = false ↔
   getStatusColor (status r) = js "#2e7d32" ∨ getStatusColor (status r) = js "#d32f2f")
  ∧ (interval_fetches s = true ↔
     getStatusColor (status r) = js "#0070f3" ∨ getStatusColor (status r) = js "#666").
Proof.
  intros Hs. unfold interval_fetches, should_poll, status_is, getStatusColor.
  rewrite Hs.
  case_bool_decide as Hc; cbn [negb andb].
  { split; split; try done; [by left|]. intros [E|E]; by vm_compute in E. }
  case_bool_decide as Hf; cbn [negb andb].
  { split; split; try done; [by right|]. intros [E|E]; by vm_compute in E. }
  destruct (_ || _); split; split; try done;
    try (intros [E|E]; by vm_compute in E); intros _; [by left|by right].
Qed.

End StatusPageFacts.

(** ** Sessions, further *)

Section SessionFacts.
Import ChatInterface.

Lemma overwrite_then_delete (m : gmap jsstring jsstring) k1 k2 k3 v1 v2 :
  delete k3 (delete k2 (<[k1 := v2]> (delete k3 (delete k2 (<[k1 := v1]> m)))))
  = delete k3 (delete k2 (<[k1 := v2]> m)).
Proof.
  apply map_eq. intros k.
  destruct (decide (k3 = k)) as [->|H3]; [by rewrite !lookup_delete_eq|].
  rewrite !(lookup_delete_ne _ k3) by done.
  destruct (decide (k2 = k)) as [->|H2]; [by rewrite !lookup_delete_eq|].
  rewrite !(lookup_delete_ne _ k2) by done.
  destruct (decide (k1 = k)) as [->|H1]; [by rewrite !lookup_insert_eq|].
  rewrite !(lookup_insert_ne _ k1) by done.
  rewrite !(lookup_delete_ne _ k3) by done.
  rewrite !(lookup_delete_ne _ k2) by done.
  by rewrite !(lookup_insert_ne _ k1) by done.
Qed.

(** A second New Chat makes the first one invisible, and New Chat leaves
    the draft alone: the input box, the attachment tray, the loading flag
    and the ref are as they were. *)
Theorem handleNewChat_again rnd1 rnd2 s :
  handleNewChat rnd2 (handleNewChat rnd1 s) = handleNewChat rnd2 s
  ∧ input (handleNewChat rnd1 s) = input s
  ∧ attachments (handleNewChat rnd1 s) = attachments s
  ∧ isLoading (handleNewChat rnd1 s) = isLoading s
  ∧ assistantMessageRef (handleNewChat rnd1 s) = assistantMessageRef s.
Proof.
  destruct s as [ms i l a sid q r ls c].
  cbv beta iota zeta delta
    [handleNewChat useEffect_init localStorage_removeItem
     localStorage_setItem setQuotationId setMessages setSessionId
     messages input isLoading attachments sessionId quotationId
     assistantMessageRef localStorage console].
  rewrite overwrite_then_delete. done.
Qed.

(** The session effect of a page load stores the new session id under
    [chat_session_id], where it equals the state's, and writes no other
    key: a [quotation_id] stored by an earlier session stays in
    [localStorage] though the state starts without it; New Chat, which
    removes it, stores its session id the same way. *)
Theorem session_id_is_stored rnd s :
  localStorage (useEffect_init rnd s) !! js "chat_session_id"
  = sessionId (useEffect_init rnd s)
  ∧ (∀ k, k ≠ js "chat_session_id" →
          localStorage (useEffect_init rnd s) !! k = localStorage s !! k)
  ∧ localStorage (handleNewChat rnd s) !! js "chat_session_id"
    = sessionId (handleNewChat rnd s)
  ∧ (∀ k, k ≠ js "chat_session_id" → k ≠ js "quotation_id" →
          k ≠ js "chat_messages" →
          localStorage (handleNewChat rnd s) !! k = localStorage s !! k).
Proof.
  destruct s as [ms i l a sid q r ls c].
  cbv beta iota zeta delta
    [handleNewChat useEffect_init localStorage_removeItem
     localStorage_setItem setQuotationId setMessages setSessionId
     messages input isLoading attachments sessionId quotationId
     assistantMessageRef localStorage console].
  split; [|split; [|split]].
  - apply lookup_insert_eq.
  - intros k Hk. by rewrite lookup_insert_ne.
  - rewrite !lookup_delete_ne by (by vm_compute). apply lookup_insert_eq.
  - intros k H1 H2 H3.
    rewrite !lookup_delete_ne by done. by rewrite lookup_insert_ne.
Qed.

End SessionFacts.

(** ** The further properties on sample inputs *)

Section MoreSampleFacts.
Import ChatInterface Dispatch Observations Sample MoreSamples.

Lemma chunking_is_irrelevant_witness :
  attachments typed_hi = []
  ∧ trim (input typed_hi) ≠ []
  ∧ decoded TextDecoder_new hello_world = decoded TextDecoder_new hello_world_recut
  ∧ sendMessage (streaming hello_world) typed_hi
    = sendMessage (streaming hello_world_recut) typed_hi.
Proof.
  assert (trim (input typed_hi) ≠ []) as Hi by by vm_compute.
  assert (decoded TextDecoder_new hello_world
          = decoded TextDecoder_new hello_world_recut) as Hd by by vm_compute.
  split; [reflexivity|]. split; [exact Hi|]. split; [exact Hd|].
  exact (chunking_is_irrelevant (streaming hello_world) (streaming hello_world_recut)
           typed_hi 200 (inr []) _ 200 (inr []) _ eq_refl Hi eq_refl eq_refl Hd eq_refl).
Defined.


Lemma read_failure_shows_error_bubble_witness :
  attachments typed_hi = []
  ∧ trim (input typed_hi) ≠ []
  ∧ ending {| chunks := [data_line "{'type':'content','content':'Hel'}"];
              ending := ReadRejected (Error (js "network error")) |}
    = ReadRejected (Error (js "network error"))
  ∧ last (console (sendMessage broken_off typed_hi).1)
    = Some (LogSendError (Error (js "network error")))
  ∧ isLoading (sendMessage broken_off typed_hi).1 = false.
Proof.
  assert (trim (input typed_hi) ≠ []) as Hi by by vm_compute.
  split; [reflexivity|]. split; [exact Hi|]. split; [reflexivity|].
  exact (proj2 (read_failure_shows_error_bubble broken_off typed_hi
                  200 (inr []) _ (Error (js "network error"))
                  eq_refl Hi eq_refl eq_refl)).
Defined.

Lemma http_error_bubble_witness :
  attachments typed_hi = []
  ∧ trim (input typed_hi) ≠ []
  ∧ messages (sendMessage (http_error 422) typed_hi).1
    = [greeting; userMsg typed_hi;
       assistantMsg (js "Invalid request format. Please try again.")]
  ∧ messages (sendMessage (http_error 500) typed_hi).1
    = [greeting; userMsg typed_hi;
       assistantMsg (js "Server error: HTTP error! status: 500")]
  ∧ messages (sendMessage (http_error_unreadable 500) typed_hi).1
    = [greeting; userMsg typed_hi;
       assistantMsg (js "Sorry, I encountered an error connecting to the server.")].
Proof.
  assert (trim (input typed_hi) ≠ []) as Hi by by vm_compute.
  split; [reflexivity|]. split; [exact Hi|]. split; [|split].
  - exact (proj1 (http_error_bubble (http_error 422) typed_hi 422 (inr []) None
                    eq_refl Hi eq_refl)).
  - exact (proj1 (http_error_bubble (http_error 500) typed_hi 500 (inr []) None
                    eq_refl Hi eq_refl)).
  - exact (proj1 (http_error_bubble (http_error_unreadable 500) typed_hi 500
                    (inl (Error (js "network error"))) None
                    eq_refl Hi eq_refl)).
Defined.

Lemma sent_turn_shape_witness :
  nothing_to_send typed_hi = false
  ∧ ∃ r, (sendMessage (streaming hello_world) typed_hi).2 = [r]
         ∧ request_message r = Some (js "hi").
Proof.
  split; [reflexivity|].
  exact (proj1 (sent_turn_shape (streaming hello_world) typed_hi eq_refl)).
Defined.

Lemma requests_carry_session_id_witness :
  sessionId typed_hi = Some (generateSessionId (js "k3x9"))
  ∧ ∀ r, r ∈ (sendMessage (streaming hello_world) typed_hi).2 →
         request_session_id r = Some (js "session-k3x9").
Proof.
  split; [reflexivity|].
  exact (requests_carry_session_id (streaming hello_world) typed_hi (js "k3x9")
           eq_refl).
Defined.

Lemma removeAttachment_in_range_witness :
  attachments two_attached !! 0%nat
  = Some (Attachments.attachment_of photo (js "blob:1"))
  ∧ Attachments.removeAttachment 0 two_attached
    = inr (setAttachments [Attachments.attachment_of plan (js "blob:2")] two_attached,
           [js "blob:1"]).
Proof.
  split; [reflexivity|].
  exact (proj1 (removeAttachment_in_range 0 two_attached _ eq_refl)).
Defined.

Lemma removeAttachment_out_of_range_witness :
  (length (attachments two_attached) ≤ 2)%nat
  ∧ ∃ e, Attachments.removeAttachment 2 two_attached = inl e.
Proof.
  assert (length (attachments two_attached) ≤ 2)%nat as Hl by (cbn; lia).
  split; [exact Hl|].
  exact (removeAttachment_out_of_range 2 two_attached Hl).
Defined.

Lemma sent_message_is_visible_witness :
  nothing_to_send (setInput [] two_attached) = false
  ∧ is_Some (MessageBubble.MessageBubble (userMsg (setInput [] two_attached))).
Proof.
  split; [reflexivity|].
  exact (sent_message_is_visible (setInput [] two_attached) eq_refl).
Defined.

Lemma bubble_layout_witness :
  MessageBubble.MessageBubble (userMsg typed_hi)
  = Some {| MessageBubble.isUser := true; MessageBubble.dir := MessageBubble.ltr;
            MessageBubble.previews := []; MessageBubble.markdown := js "hi" |}
  ∧ MessageBubble.markdown
      {| MessageBubble.isUser := true; MessageBubble.dir := MessageBubble.ltr;
         MessageBubble.previews := []; MessageBubble.markdown := js "hi" |}
    = content (userMsg typed_hi).
Proof.
  split; [reflexivity|].
  exact (proj1 (bubble_layout (userMsg typed_hi) _ eq_refl)).
Defined.

Lemma load_failure_shows_error_witness :
  QuotationStatusPage.quotation_loaded (StatusPageHandlers.mount (js "quot-1")) = false
  ∧ QuotationStatusPage.render
      (StatusPageHandlers.fetchStatus (StatusPageHandlers.Rejected None)
         (StatusPageHandlers.mount (js "quot-1")))
    = QuotationStatusPage.ErrorView (js "Failed to load status").
Proof.
  split; [reflexivity|].
  exact (proj1 (load_failure_shows_error (StatusPageHandlers.mount (js "quot-1"))
                  None eq_refl)).
Defined.

Lemma main_view_is_stable_witness :
  forallb StatusPageHandlers.keeps_quotation
    [StatusPageHandlers.StatusArrived (StatusPageHandlers.Rejected None)] = true
  ∧ ∃ download failed_notice,
      QuotationStatusPage.render
        (foldl StatusPageHandlers.arrive (StatusPageHandlers.mount (js "quot-1"))
           ([StatusPageHandlers.StatusArrived (StatusPageHandlers.Rejected None)]
            ++ StatusPageHandlers.QuotationArrived (StatusPageHandlers.Resolved true)
               :: [StatusPageHandlers.StatusArrived (StatusPageHandlers.Rejected None)]))
      = QuotationStatusPage.MainView download failed_notice.
Proof.
  split; [reflexivity|].
  exact (proj1 (main_view_is_stable (js "quot-1")
                  [StatusPageHandlers.StatusArrived (StatusPageHandlers.Rejected None)]
                  [StatusPageHandlers.StatusArrived (StatusPageHandlers.Rejected None)]
                  eq_refl)).
Defined.

Lemma status_colour_matches_polling_witness :
  QuotationStatusPage.status_cell
    (StatusPageHandlers.fetchStatus
       (StatusPageHandlers.Resolved
          {| QuotationStatusPage.status := js "cost_calculation";
             QuotationStatusPage.progress := Some 70%N |})
       (StatusPageHandlers.mount (js "quot-1")))
  = Some {| QuotationStatusPage.status := js "cost_calculation";
            QuotationStatusPage.progress := Some 70%N |}
  ∧ (StatusPageHandlers.interval_fetches
       (StatusPageHandlers.fetchStatus
          (StatusPageHandlers.Resolved
             {| QuotationStatusPage.status := js "cost_calculation";
                QuotationStatusPage.progress := Some 70%N |})
          (StatusPageHandlers.mount (js "quot-1"))) = true ↔
     StatusPageHandlers.getStatusColor (js "cost_calculation") = js "#0070f3"
     ∨ StatusPageHandlers.getStatusColor (js "cost_calculation") = js "#666").
Proof.
  split; [reflexivity|].
  exact (proj2 (status_colour_matches_polling
                  (StatusPageHandlers.fetchStatus
                     (StatusPageHandlers.Resolved
                        {| QuotationStatusPage.status := js "cost_calculation";
                           QuotationStatusPage.progress := Some 70%N |})
                     (StatusPageHandlers.mount (js "quot-1")))
                  {| QuotationStatusPage.status := js "cost_calculation";
                     QuotationStatusPage.progress := Some 70%N |}
                  eq_refl)).
Defined.

End MoreSampleFacts.
